(** * Automotive financial forecast dashboard: KPI aggregation and scenario engine

    A shallow embedding of the data-transformation code of [dashboard.py]:
    [calculate_summary_kpis], the calculation part of
    [render_scenario_planner] (correlation matrix, lookups, what-if formula)
    and the series selection of [render_kpi_deep_dive].

    Modelling conventions.
    - A pandas DataFrame is the list of its rows, in row order.
    - A float cell is a [value]: [Some x] with [x] a real number, or [None]
      for NaN (pandas' marker of a missing number).  Arithmetic is the exact
      arithmetic of the reals; NaN propagates through [+], [-], [*], [/].
      Rounding, overflow and underflow of binary64 are outside the model.
    - A date (pandas Timestamp) is an integer on the time axis.
    - A KPI name is an ASCII [string].  The table the loader returns may
      lack the name in some rows (the loader only stops when every name is
      missing): it is a [LoadedFrame], whose name cell is [None] for NaN.
      [calculate_summary_kpis] raises on such a cell, so the table it returns
      and all the functions [main] runs on it have a name in every row: that
      table is a [DataFrame].
    - The key of the forecast table is (KPI, date), but nothing enforces
      it: where a date repeats within a component, the outer join of
      [DataFrame.add] has one row per pair of rows with that date.
      Statements about the value at a date assume unique dates.
    - A Python exception is a [Raise] result.  Streamlit output is not
      modelled: a rendering function returns what it hands to the widgets. *)

From Stdlib Require Import Reals Lra Lia ZArith List String Ascii Bool.
From Stdlib Require Import Sorted.
Import ListNotations.

Open Scope R_scope.

(** ** Values, rows, results *)

Definition value := option R.

Record Row := mkRow {
  date : Z;
  english_name : string;
  actual_value : value;
  predicted_value : value;
  yhat_lower : value;
  yhat_upper : value
}.

Definition DataFrame := list Row.

Inductive exn := TypeError | IndexError | AttributeError | ValueError.

Inductive result (A : Type) : Type :=
| Ok (a : A)
| Raise (e : exn).

Arguments Ok {A} a.
Arguments Raise {A} e.

Definition bind {A B : Type} (m : result A) (k : A -> result B) : result B :=
  match m with
  | Ok a => k a
  | Raise e => Raise e
  end.

Fixpoint mapM {A B : Type} (f : A -> result B) (l : list A) : result (list B) :=
  match l with
  | [] => Ok []
  | x :: t => bind (f x) (fun y => bind (mapM f t) (fun ys => Ok (y :: ys)))
  end.

(** NaN-propagating float arithmetic. *)

Definition vlift2 (op : R -> R -> R) (a b : value) : value :=
  match a, b with
  | Some x, Some y => Some (op x y)
  | _, _ => None
  end.

Definition vadd := vlift2 Rplus.
Definition vsub := vlift2 Rminus.
Definition vmul := vlift2 Rmult.

Definition isna (v : value) : bool :=
  match v with
  | None => true
  | Some _ => false
  end.

(** ** Strings: [str.lower] and [str.strip] on ASCII *)

Definition ascii_lower (c : ascii) : ascii :=
  let n := nat_of_ascii c in
  if ((65 <=? n) && (n <=? 90))%nat then ascii_of_nat (n + 32) else c.

Fixpoint lower (s : string) : string :=
  match s with
  | EmptyString => EmptyString
  | String c t => String (ascii_lower c) (lower t)
  end.

(** Python's ASCII whitespace: TAB, LF, VT, FF, CR, FS, GS, RS, US, SPACE. *)
Definition is_space (c : ascii) : bool :=
  let n := nat_of_ascii c in
  (((9 <=? n) && (n <=? 13)) || ((28 <=? n) && (n <=? 32)))%nat.

Fixpoint lstrip (s : string) : string :=
  match s with
  | EmptyString => EmptyString
  | String c t => if is_space c then lstrip t else s
  end.

Fixpoint rstrip (s : string) : string :=
  match s with
  | EmptyString => EmptyString
  | String c t =>
      match rstrip t with
      | EmptyString => if is_space c then EmptyString else String c EmptyString
      | t' => String c t'
      end
  end.

Definition strip (s : string) : string := rstrip (lstrip s).

(** The key of a KPI name in the catalogue: [kpi.lower().strip()]. *)
Definition normalize (kpi : string) : string := strip (lower kpi).

(** ** [Series.unique] and the Python dict *)

(** [unique]: the distinct values in order of first appearance. *)
Fixpoint unique (l : list string) : list string :=
  match l with
  | [] => []
  | x :: t => x :: filter (fun y => negb (String.eqb y x)) (unique t)
  end.

Definition dict := list (string * string).

(** [d[k] = v]: an existing key keeps its position and takes the new value,
    a new key goes to the end. *)
Fixpoint dict_set (k v : string) (d : dict) : dict :=
  match d with
  | [] => [(k, v)]
  | (k', v') :: t =>
      if String.eqb k' k then (k', v) :: t else (k', v') :: dict_set k v t
  end.

Fixpoint dict_get (k : string) (d : dict) : option string :=
  match d with
  | [] => None
  | (k', v') :: t => if String.eqb k' k then Some v' else dict_get k t
  end.

(** [{kpi.lower().strip(): kpi for kpi in unique_kpis}] *)
Definition build_kpi_map (unique_kpis : list string) : dict :=
  fold_left (fun d kpi => dict_set (normalize kpi) kpi d) unique_kpis [].

(** ** [DataFrame.add(other, fill_value=0)] on frames indexed by date *)

Fixpoint insert_date (d : Z) (l : list Z) : list Z :=
  match l with
  | [] => [d]
  | x :: t =>
      if (d <? x)%Z then d :: l
      else if (d =? x)%Z then l
      else x :: insert_date d t
  end.

(** The outer join of two indexes that are not equal: their sorted union. *)
Definition union_dates (a b : list Z) : list Z :=
  fold_right insert_date [] (a ++ b).

Fixpoint dates_eqb (a b : list Z) : bool :=
  match a, b with
  | [], [] => true
  | x :: a', y :: b' => (x =? y)%Z && dates_eqb a' b'
  | _, _ => false
  end.

(** The first row of a frame at an index label: the row at the label when
    the dates of the frame are unique. *)
Definition row_at (d : Z) (f : DataFrame) : option Row :=
  find (fun r => (date r =? d)%Z) f.

(** All the rows of a frame at an index label. *)
Definition rows_at (d : Z) (f : DataFrame) : list Row :=
  filter (fun r => (date r =? d)%Z) f.

(** The rows of the outer join at one label: one row per pair of a left and
    a right row with the label; where one side has no row with the label,
    the rows of the other side, each beside an all-NaN row. *)
Definition pairs_at (a b : DataFrame) (d : Z)
  : list (Z * option Row * option Row) :=
  match rows_at d a, rows_at d b with
  | [], rb => map (fun y => (d, None, Some y)) rb
  | ra, [] => map (fun x => (d, Some x, None)) ra
  | ra, rb => map (fun p => (d, Some (fst p), Some (snd p))) (list_prod ra rb)
  end.

(** Alignment of the two operands.  Frames with equal indexes are combined
    position by position; otherwise both are re-indexed on the outer join of
    the two indexes, label by label in ascending order. *)
Definition align (a b : DataFrame) : list (Z * option Row * option Row) :=
  if dates_eqb (map date a) (map date b)
  then map (fun p => (date (fst p), Some (fst p), Some (snd p))) (combine a b)
  else flat_map (pairs_at a b) (union_dates (map date a) (map date b)).

(** A float cell of a re-indexed row. *)
Definition cell (col : Row -> value) (o : option Row) : value :=
  match o with
  | Some r => col r
  | None => None
  end.

(** [fill_binop]: where exactly one side is NaN, that side becomes the fill
    value 0; where both are NaN both stay NaN. *)
Definition fill_binop (l r : value) : value * value :=
  match l, r with
  | None, Some _ => (Some 0, r)
  | Some _, None => (l, Some 0)
  | _, _ => (l, r)
  end.

Definition add_fill (l r : value) : value :=
  vadd (fst (fill_binop l r)) (snd (fill_binop l r)).

(** The same operation on the object column [english_name], which is a
    column of both operands ([set_index] moved only [date] out): two strings
    concatenate; a side missing after re-indexing is NaN, is filled with the
    integer 0, and [str + int] raises [TypeError]. *)
Definition add_fill_object (l r : option string) : result (option string) :=
  match l, r with
  | Some a, Some b => Ok (Some (a ++ b)%string)
  | None, None => Ok None
  | _, _ => Raise TypeError
  end.

(** A row of the sum: index label and the five columns. *)
Record SumRow := mkSumRow {
  s_date : Z;
  s_english_name : option string;
  s_actual_value : value;
  s_predicted_value : value;
  s_yhat_lower : value;
  s_yhat_upper : value
}.

Definition add_rows (p : Z * option Row * option Row) : result SumRow :=
  let '(d, oa, ob) := p in
  bind (add_fill_object (option_map english_name oa)
                        (option_map english_name ob))
       (fun n =>
          Ok (mkSumRow d n
                (add_fill (cell actual_value oa) (cell actual_value ob))
                (add_fill (cell predicted_value oa) (cell predicted_value ob))
                (add_fill (cell yhat_lower oa) (cell yhat_lower ob))
                (add_fill (cell yhat_upper oa) (cell yhat_upper ob)))).

Definition frame_add_fill0 (a b : DataFrame) : result (list SumRow) :=
  mapM add_rows (align a b).

(** ** [calculate_summary_kpis] *)

Definition new_sales_lower : string := "new vehicles - retail".
Definition used_sales_lower : string := "used vehicles - retail".
Definition new_gp_lower : string := "gross profit - new vehicles".
Definition used_gp_lower : string := "gross profit - used vehicles".
Definition total_sales_name : string := "Total Vehicle Sales (Verified)".
Definition total_gp_name : string := "Total Gross Profit (Verified)".

(** [df[df['english_name'] == kpi]] *)
Definition rows_of (kpi : string) (df : DataFrame) : DataFrame :=
  filter (fun r => String.eqb (english_name r) kpi) df.

(** [total[['actual_value', 'predicted_value']].reset_index()] followed by
    [total['english_name'] = name]; concatenated under the columns of the
    table, a composite row has NaN in every column it does not carry. *)
Definition total_row (name : string) (s : SumRow) : Row :=
  mkRow (s_date s) name (s_actual_value s) (s_predicted_value s) None None.

(** The rows one [if] block appends for resolved components [a] and [b]. *)
Definition total_rows (df : DataFrame) (a b name : string)
  : result (list Row) :=
  bind (frame_add_fill0 (rows_of a df) (rows_of b df))
       (fun total => Ok (map (total_row name) total)).

(** One [if ... in kpi_map and ... in kpi_map] block. *)
Definition add_total (kpi_map : dict) (a_lower b_lower name : string)
           (df_processed : DataFrame) : result DataFrame :=
  match dict_get a_lower kpi_map, dict_get b_lower kpi_map with
  | Some a, Some b =>
      bind (total_rows df_processed a b name)
           (fun total => Ok (df_processed ++ total))
  | _, _ => Ok df_processed
  end.

(** A row of the table as [load_and_validate_data] returns it: the name
    cell is NaN where the file has no name. *)
Record LoadedRow := mkLoadedRow {
  l_date : Z;
  l_english_name : option string;
  l_actual_value : value;
  l_predicted_value : value;
  l_yhat_lower : value;
  l_yhat_upper : value
}.

Definition LoadedFrame := list LoadedRow.

(** A row with its name, seen as a row of the loaded table. *)
Definition loaded_row (r : Row) : LoadedRow :=
  mkLoadedRow (date r) (Some (english_name r)) (actual_value r)
              (predicted_value r) (yhat_lower r) (yhat_upper r).

Definition loaded (df : DataFrame) : LoadedFrame := map loaded_row df.

Definition cell_eqb (a b : option string) : bool :=
  match a, b with
  | Some x, Some y => String.eqb x y
  | None, None => true
  | _, _ => false
  end.

(** [Series.unique] on the name column: NaN is one of the distinct values. *)
Fixpoint unique_cells (l : list (option string)) : list (option string) :=
  match l with
  | [] => []
  | x :: t => x :: filter (fun y => negb (cell_eqb y x)) (unique_cells t)
  end.

(** One step of the dict comprehension: [kpi.lower()] on NaN, a float,
    raises [AttributeError]. *)
Definition kpi_map_step (d : result dict) (kpi : option string) : result dict :=
  bind d (fun d =>
            match kpi with
            | Some k => Ok (dict_set (normalize k) k d)
            | None => Raise AttributeError
            end).

(** [{kpi.lower().strip(): kpi for kpi in unique_kpis}] on the distinct
    cells of the loaded table. *)
Definition build_kpi_map_cells (unique_kpis : list (option string))
  : result dict :=
  fold_left kpi_map_step unique_kpis (Ok []).

Definition named_row (r : LoadedRow) : result Row :=
  match l_english_name r with
  | Some n => Ok (mkRow (l_date r) n (l_actual_value r) (l_predicted_value r)
                        (l_yhat_lower r) (l_yhat_upper r))
  | None => Raise AttributeError
  end.

(** The loaded table with its names as strings.  Past the dict
    comprehension every name cell holds a string, so the copy the blocks
    work on is such a table. *)
Definition named (df : LoadedFrame) : result DataFrame := mapM named_row df.

Definition calculate_summary_kpis (df : LoadedFrame) : result DataFrame :=
  let unique_kpis := unique_cells (map l_english_name df) in
  bind (build_kpi_map_cells unique_kpis) (fun kpi_map =>
  bind (named df) (fun df_processed =>
  bind (add_total kpi_map new_sales_lower used_sales_lower total_sales_name
                  df_processed)
       (add_total kpi_map new_gp_lower used_gp_lower total_gp_name))).

(** ** The historical table, [pivot_table] and [corr] *)

Record HistRow := mkHistRow {
  h_date : Z;
  h_english_name : string;
  monthly_value : R
}.

Definition HistTable := list HistRow.

Definition rsum (l : list R) : R := fold_right Rplus 0 l.

(** The aggregation of [pivot_table] is the mean of a group; a (date, KPI)
    pair without rows has no group and its cell is NaN. *)
Definition mean (l : list R) : value :=
  match l with
  | [] => None
  | _ => Some (rsum l / INR (List.length l))
  end.

Definition fillna0 (v : value) : R :=
  match v with
  | Some x => x
  | None => 0
  end.

(** Row labels of the pivot: the distinct dates, sorted. *)
Definition pivot_index (t : HistTable) : list Z :=
  union_dates (map h_date t) [].

(** Column labels of the pivot: the distinct KPI names.  Columns are only
    ever addressed by label, so their order is left as [unique] gives it. *)
Definition pivot_columns (t : HistTable) : list string :=
  unique (map h_english_name t).

Definition group_values (t : HistTable) (d : Z) (kpi : string) : list R :=
  map monthly_value
      (filter (fun r => (h_date r =? d)%Z && String.eqb (h_english_name r) kpi) t).

(** A cell of [pivot_table(...).fillna(0)]. *)
Definition pivot_cell (t : HistTable) (d : Z) (kpi : string) : R :=
  fillna0 (mean (group_values t d kpi)).

(** The observations of a KPI pair: one point per row of the pivot. *)
Definition observations (t : HistTable) (a b : string) : list (R * R) :=
  map (fun d => (pivot_cell t d a, pivot_cell t d b)) (pivot_index t).

Definition sq_dev (m x : R) : R := (x - m) * (x - m).

Definition ssqd (xs : list R) : R :=
  let m := rsum xs / INR (List.length xs) in
  rsum (map (sq_dev m) xs).

Definition covariation (pts : list (R * R)) : R :=
  let meanx := rsum (map fst pts) / INR (List.length pts) in
  let meany := rsum (map snd pts) / INR (List.length pts) in
  rsum (map (fun p => (fst p - meanx) * (snd p - meany)) pts).

(** Pearson's coefficient of a list of observations, as [DataFrame.corr]
    computes a cell: no observation gives NaN, a zero divisor gives NaN,
    otherwise the co-variation over the root of the product of the two
    sums of squared deviations. *)
Definition pearson (pts : list (R * R)) : value :=
  match pts with
  | [] => None
  | _ =>
      let ssqdx := ssqd (map fst pts) in
      let ssqdy := ssqd (map snd pts) in
      let divisor := sqrt (ssqdx * ssqdy) in
      if Req_dec_T divisor 0 then None else Some (covariation pts / divisor)
  end.

(** [correlation_matrix.loc[a, b]] for labels of the matrix. *)
Definition correlation_matrix (t : HistTable) (a b : string) : value :=
  pearson (observations t a b).

Definition in_columns (kpi : string) (t : HistTable) : bool :=
  existsb (String.eqb kpi) (pivot_columns t).

(** ** [render_scenario_planner] *)

Record ScenarioResult := mkScenarioResult {
  original_driver_pred : value;
  adjusted_driver_pred : value;
  driver_delta : value;
  original_impacted_pred : value;
  adjusted_impacted_pred : value;
  impacted_delta : value;
  correlation : value
}.

Inductive Scenario :=
| NoFutureData
| Planned (r : ScenarioResult).

(** [.iloc[0]] of a selection. *)
Definition iloc0 (l : list value) : result value :=
  match l with
  | [] => Raise IndexError
  | v :: _ => Ok v
  end.

Definition future_dates (forecast_df : DataFrame) (driver_kpi : string)
  : list Z :=
  map date (filter (fun r => isna (actual_value r))
                   (rows_of driver_kpi forecast_df)).

(** [selected_month] and [change_percentage] are what the two sidebar
    widgets return: the select box offers [future_dates], the slider an
    integer percentage between -50 and 50, divided by 100. *)
Definition render_scenario_planner
           (forecast_df : DataFrame) (cleaned_df : HistTable)
           (driver_kpi impacted_kpi : string)
           (selected_month : Z) (change_percentage : R) : result Scenario :=
  let driver_data := rows_of driver_kpi forecast_df in
  match future_dates forecast_df driver_kpi with
  | [] => Ok NoFutureData
  | _ :: _ =>
      let corr :=
        if in_columns driver_kpi cleaned_df && in_columns impacted_kpi cleaned_df
        then correlation_matrix cleaned_df driver_kpi impacted_kpi
        else Some 0 in
      bind (iloc0 (map predicted_value
                       (filter (fun r => (date r =? selected_month)%Z)
                               driver_data)))
           (fun original_driver =>
      bind (iloc0 (map predicted_value
                       (filter (fun r =>
                                  String.eqb (english_name r) impacted_kpi
                                  && (date r =? selected_month)%Z)
                               forecast_df)))
           (fun original_impacted =>
      let adjusted_driver :=
        vmul original_driver (Some (1 + change_percentage)) in
      let adjusted_impacted :=
        vmul original_impacted
             (vadd (Some 1) (vmul (Some change_percentage) corr)) in
      Ok (Planned
            (mkScenarioResult
               original_driver adjusted_driver
               (vsub adjusted_driver original_driver)
               original_impacted adjusted_impacted
               (vsub adjusted_impacted original_impacted)
               corr))))
  end.

(** ** [render_kpi_deep_dive] *)

(** The data handed to the two charts: the KPI's rows and the
    "3-Month Forecast" slice [kpi_data[actual_value.isna()].head(3)]. *)
Definition render_kpi_deep_dive (df : DataFrame) (selected_kpi : string)
  : DataFrame * DataFrame :=
  let kpi_data := rows_of selected_kpi df in
  let forecasts := firstn 3 (filter (fun r => isna (actual_value r)) kpi_data) in
  (kpi_data, forecasts).

(** ** [render_header] *)

(** [sub in s] on strings. *)
Fixpoint contains (sub s : string) : bool :=
  String.prefix sub s ||
  match s with
  | EmptyString => false
  | String _ t => contains sub t
  end.

(** [key_kpis_lower]: card title and lowercase KPI key, in insertion order. *)
Definition key_kpis_lower : list (string * string) :=
  [ ("Total Gross Profit", "total gross profit");
    ("Total Sales", "total sales");
    ("profit or loss before income tax", "profit or loss before income tax") ]%string.

(** One metric of a card: the date whose month name is the label, the
    predicted value shown, and whether it is shown with a dollar sign
    (["Gross" in title]). *)
Record Metric := mkMetric {
  m_date : Z;
  m_value : value;
  m_dollar : bool
}.

(** What a card of the header shows. *)
Inductive HeaderCard :=
| KpiNotFound
| NoForecast
| Metrics (ms : list Metric).

Definition header_card (df : DataFrame) (title kpi_lower : string)
  : HeaderCard :=
  let available_kpi_map := build_kpi_map (unique (map english_name df)) in
  match dict_get kpi_lower available_kpi_map with
  | Some kpi_name =>
      let forecasts :=
        firstn 3 (filter (fun r => String.eqb (english_name r) kpi_name
                                   && isna (actual_value r)) df) in
      match forecasts with
      | [] => NoForecast
      | _ :: _ =>
          Metrics (map (fun row => mkMetric (date row) (predicted_value row)
                                            (contains "Gross" title))
                       forecasts)
      end
  | None => KpiNotFound
  end.

Definition render_header (df : DataFrame) : list (string * HeaderCard) :=
  map (fun p => (fst p, header_card df (fst p) (snd p))) key_kpis_lower.

(** ** [main]: the KPI list and the defaults of the select boxes *)

Fixpoint insert_sorted (x : string) (l : list string) : list string :=
  match l with
  | [] => [x]
  | y :: t => if String.leb x y then x :: l else y :: insert_sorted x t
  end.

(** [sorted] on a list of strings. *)
Definition sorted (l : list string) : list string :=
  fold_right insert_sorted [] l.

(** [x in l] *)
Definition mem (x : string) (l : list string) : bool :=
  existsb (String.eqb x) l.

(** [l[i]] *)
Definition item (l : list string) (i : nat) : result string :=
  match nth_error l i with
  | Some x => Ok x
  | None => Raise IndexError
  end.

(** [l.index(x)]; [None] stands for an absent value, on which Python raises
    [ValueError]. *)
Fixpoint index_of (x : string) (l : list string) : option nat :=
  match l with
  | [] => None
  | y :: t => if String.eqb y x then Some O else option_map S (index_of x t)
  end.

Definition kpi_list_of (forecast_df : DataFrame) : list string :=
  sorted (unique (map english_name forecast_df)).

Definition default_driver (kpi_list : list string) : result string :=
  if mem total_sales_name kpi_list then Ok total_sales_name
  else item kpi_list 0.

Definition default_impacted (kpi_list : list string) : result string :=
  if mem total_gp_name kpi_list then Ok total_gp_name
  else if (1 <? List.length kpi_list)%nat then item kpi_list 1
       else item kpi_list 0.

(** The state of the sidebar after the three select boxes are set up: the
    options and the default positions of the deep-dive and driver boxes
    (both [kpi_list.index(default_driver)]) and of the impacted box. *)
Record Sidebar := mkSidebar {
  sb_kpi_list : list string;
  sb_driver_index : nat;
  sb_impacted_index : nat
}.

(** How a run of [main] gets on up to the select boxes: [st.stop()] in the
    loader, the sidebar set up, or an exception. *)
Inductive MainOutcome :=
| Stopped
| Sidebar_set (sb : Sidebar)
| Main_raised (e : exn).

Definition has_name (r : LoadedRow) : bool :=
  match l_english_name r with
  | Some _ => true
  | None => false
  end.

(** The two checks of [load_and_validate_data] on the content of the forecast
    file: [df.empty] and [df['english_name'].dropna().empty].  Either one
    stops the run. *)
Definition forecast_stops (df : LoadedFrame) : bool :=
  match df with
  | [] => true
  | _ :: _ => negb (existsb has_name df)
  end.

(** The same on the historical file, whose rows all carry a name. *)
Definition cleaned_stops (df : HistTable) : bool :=
  match df with
  | [] => true
  | _ :: _ => false
  end.

(** [main] up to the select boxes.  Its arguments are the two tables as
    [pd.read_csv] returns them for files that exist, have the required
    columns and hold dates that parse; the other stops of the loader lie
    before that. *)
Definition main_sidebar (forecast_df_raw : LoadedFrame)
           (cleaned_df_raw : HistTable) : MainOutcome :=
  if forecast_stops forecast_df_raw then Stopped
  else if cleaned_stops cleaned_df_raw then Stopped
  else
    match calculate_summary_kpis forecast_df_raw with
    | Raise e => Main_raised e
    | Ok forecast_df =>
        let kpi_list := kpi_list_of forecast_df in
        match default_driver kpi_list with
        | Raise e => Main_raised e
        | Ok driver =>
            match default_impacted kpi_list with
            | Raise e => Main_raised e
            | Ok impacted =>
                match index_of driver kpi_list, index_of impacted kpi_list with
                | Some i, Some j => Sidebar_set (mkSidebar kpi_list i j)
                | _, _ => Main_raised ValueError
                end
            end
        end
    end.

(** ** Vocabulary of the statements *)

(** The first row of a KPI at a date, as the two [.loc[...].iloc[0]]
    selections of the scenario planner find it. *)
Definition kpi_row_at (df : DataFrame) (kpi : string) (d : Z) : option Row :=
  find (fun r => String.eqb (english_name r) kpi && (date r =? d)%Z) df.

(** The correlation the planner uses: the matrix entry when both KPIs are
    columns of the matrix, 0.0 otherwise. *)
Definition scenario_correlation (cleaned_df : HistTable)
           (driver_kpi impacted_kpi : string) : value :=
  if in_columns driver_kpi cleaned_df && in_columns impacted_kpi cleaned_df
  then correlation_matrix cleaned_df driver_kpi impacted_kpi
  else Some 0.

Definition date_le (a b : Row) : Prop := (date a <= date b)%Z.

(** The rows of the KPI without an actual value, in table order. *)
Definition forecast_rows (df : DataFrame) (kpi : string) : DataFrame :=
  filter (fun r => isna (actual_value r)) (rows_of kpi df).

Definition has_key (k : string) (kpi : string) : bool :=
  String.eqb (normalize kpi) k.

(** The catalogue of a table. *)
Definition kpi_map_of (df : DataFrame) : dict :=
  build_kpi_map (unique (map english_name df)).

(** No KPI name of the table normalises to the key. *)
Definition unresolved (df : DataFrame) (k : string) : Prop :=
  forall r, In r df -> normalize (english_name r) <> k.

(** The rows one block computes: none when a component is not resolved. *)
Definition composite_rows (kpi_map : dict) (a_lower b_lower name : string)
           (df_processed : DataFrame) : result (list Row) :=
  match dict_get a_lower kpi_map, dict_get b_lower kpi_map with
  | Some a, Some b => total_rows df_processed a b name
  | _, _ => Ok []
  end.

(** What a composite row carries. *)
Definition composite_row (name : string) (r : Row) : Prop :=
  english_name r = name /\ yhat_lower r = None /\ yhat_upper r = None.

Definition component_keys : list string :=
  [new_sales_lower; used_sales_lower; new_gp_lower; used_gp_lower].

Definition is_total (r : Row) : Prop :=
  english_name r = total_sales_name \/ english_name r = total_gp_name.

(** The zero-filled series of a KPI: its column of the pivot. *)
Definition pivot_column (t : HistTable) (kpi : string) : list R :=
  map (fun d => pivot_cell t d kpi) (pivot_index t).

(** Deviations from the two means, point by point. *)
Definition deviations (pts : list (R * R)) : list (R * R) :=
  let meanx := rsum (map fst pts) / INR (List.length pts) in
  let meany := rsum (map snd pts) / INR (List.length pts) in
  map (fun p => (fst p - meanx, snd p - meany)) pts.

Definition swap (p : R * R) : R * R := (snd p, fst p).

(** A date at which exactly one of the two frames has a row. *)
Definition one_sided (a b : DataFrame) (d : Z) : Prop :=
  (In d (map date a) /\ ~ In d (map date b))
  \/ (~ In d (map date a) /\ In d (map date b)).

(** The two components of a block are resolved and do not cover the same
    dates. *)
Definition pair_mismatch (df : DataFrame) (a_lower b_lower : string) : Prop :=
  exists a b d,
    dict_get a_lower (kpi_map_of df) = Some a
    /\ dict_get b_lower (kpi_map_of df) = Some b
    /\ one_sided (rows_of a df) (rows_of b df) d.

(** [rows] is the composite of the frames [A] and [B] under [name]: one row
    per date, the dates being those of [A] and those of [B], each row the
    sum of the two rows at its date under the fill rule. *)
Definition composite_of (A B : DataFrame) (name : string) (rows : list Row)
  : Prop :=
  (forall d, In d (map date rows) <-> In d (map date A))
  /\ (forall d, In d (map date rows) <-> In d (map date B))
  /\ NoDup (map date rows)
  /\ (forall r, In r rows ->
        exists ra rb,
          row_at (date r) A = Some ra /\ row_at (date r) B = Some rb
          /\ english_name r = name
          /\ actual_value r
             = add_fill (actual_value ra) (actual_value rb)
          /\ predicted_value r
             = add_fill (predicted_value ra) (predicted_value rb)).

(** Within each KPI of the table a date occurs once. *)
Definition dates_unique (df : DataFrame) : Prop :=
  forall kpi, NoDup (map date (rows_of kpi df)).

(** What one block of [calculate_summary_kpis] appends for the table [df]:
    the composite of the two resolved components, nothing when a component
    is not resolved. *)
Definition block_rows (df : DataFrame) (a_lower b_lower name : string)
           (rows : list Row) : Prop :=
  match dict_get a_lower (kpi_map_of df), dict_get b_lower (kpi_map_of df) with
  | Some a, Some b => composite_of (rows_of a df) (rows_of b df) name rows
  | _, _ => rows = []
  end.

(** The result the planner builds from the two original predictions, the
    correlation and the percentage change. *)
Definition planned_result (original_driver original_impacted corr : value)
           (change_percentage : R) : ScenarioResult :=
  mkScenarioResult
    original_driver
    (vmul original_driver (Some (1 + change_percentage)))
    (vsub (vmul original_driver (Some (1 + change_percentage)))
          original_driver)
    original_impacted
    (vmul original_impacted
          (vadd (Some 1) (vmul (Some change_percentage) corr)))
    (vsub (vmul original_impacted
                (vadd (Some 1) (vmul (Some change_percentage) corr)))
          original_impacted)
    corr.

(** No row of the historical table bears the KPI name. *)
Definition not_in_history (cleaned_df : HistTable) (kpi : string) : Prop :=
  forall h, In h cleaned_df -> h_english_name h <> kpi.

(** Python's order on strings, as a relation. *)
Definition str_le (a b : string) : Prop := String.leb a b = true.

(** The string is empty or starts with a character that is no whitespace. *)
Definition no_leading_space (s : string) : Prop :=
  match s with
  | EmptyString => True
  | String c _ => is_space c = false
  end.

Definition header_keys : list string := map snd key_kpis_lower.

(** ** Example tables *)

Definition history_only : DataFrame :=
  [ mkRow 1 "New Vehicles - Retail" (Some 950) (Some 1000) None None;
    mkRow 1 "Gross Profit - New Vehicles" (Some 210) (Some 200) None None ].

Definition march_forecast : DataFrame :=
  [ mkRow 2 "New Vehicles - Retail" (Some 950) (Some 940) None None;
    mkRow 3 "New Vehicles - Retail" None (Some 1000) None None;
    mkRow 3 "Gross Profit - New Vehicles" None (Some 200) None None ].

Definition five_months_ascending : DataFrame :=
  [ mkRow 1 "Total Sales" (Some 90) (Some 91) None None;
    mkRow 2 "Total Sales" None (Some 100) None None;
    mkRow 3 "Total Sales" None (Some 110) None None;
    mkRow 4 "Total Sales" None (Some 120) None None;
    mkRow 5 "Total Sales" None (Some 130) None None;
    mkRow 6 "Total Sales" None (Some 140) None None ].

Definition five_months_descending : DataFrame :=
  [ mkRow 5 "Total Sales" None (Some 130) None None;
    mkRow 4 "Total Sales" None (Some 120) None None;
    mkRow 3 "Total Sales" None (Some 110) None None;
    mkRow 2 "Total Sales" None (Some 100) None None;
    mkRow 1 "Total Sales" None (Some 90) None None ].

Definition no_used_vehicles : DataFrame :=
  [ mkRow 1 "New Vehicles - Retail" (Some 10) (Some 11) (Some 9) (Some 12);
    mkRow 1 "Gross Profit - Used Vehicles" (Some 4) (Some 5) None None ].

Definition banded_sales : DataFrame :=
  [ mkRow 1 "New Vehicles - Retail" (Some 10) (Some 11) (Some 9) (Some 12);
    mkRow 2 "New Vehicles - Retail" None (Some 12) (Some 10) (Some 14);
    mkRow 1 "Used Vehicles - Retail" (Some 5) (Some 6) (Some 4) (Some 7);
    mkRow 2 "Used Vehicles - Retail" None (Some 7) (Some 5) (Some 9) ].

Definition banded_sales_total : DataFrame :=
  banded_sales ++
  [ mkRow 1 "Total Vehicle Sales (Verified)" (Some (10 + 5)) (Some (11 + 6))
          None None;
    mkRow 2 "Total Vehicle Sales (Verified)" None (Some (12 + 7)) None None ].

Definition union_example : DataFrame :=
  [ mkRow 1 "New Vehicles - Retail" (Some 10) (Some 11) None None;
    mkRow 2 "New Vehicles - Retail" (Some 20) (Some 21) None None;
    mkRow 2 "Used Vehicles - Retail" (Some 5) (Some 6) None None;
    mkRow 3 "Used Vehicles - Retail" (Some 7) (Some 8) None None ].

Definition one_sided_example : DataFrame :=
  [ mkRow 1 "Gross Profit - New Vehicles" (Some 100) (Some 110) None None;
    mkRow 1 "Gross Profit - Used Vehicles" (Some 40) (Some 45) None None;
    mkRow 2 "Gross Profit - Used Vehicles" (Some 50) (Some 55) None None ].

Definition banded_sales_twice : DataFrame :=
  banded_sales_total ++
  [ mkRow 1 "Total Vehicle Sales (Verified)" (Some (10 + 5)) (Some (11 + 6))
          None None;
    mkRow 2 "Total Vehicle Sales (Verified)" None (Some (12 + 7)) None None ].

Definition two_month_history : HistTable :=
  [ mkHistRow 1 "New Vehicles - Retail" 10;
    mkHistRow 2 "New Vehicles - Retail" 30;
    mkHistRow 1 "Service Contracts" 5;
    mkHistRow 2 "Service Contracts" 5 ].

Definition one_month_history : HistTable :=
  [ mkHistRow 1 "New Vehicles - Retail" 10;
    mkHistRow 1 "Used Vehicles - Retail" 20 ].

Definition impacted_missing_in_march : DataFrame :=
  [ mkRow 3 "New Vehicles - Retail" None (Some 1000) None None;
    mkRow 4 "Gross Profit - New Vehicles" None (Some 200) None None ].

Definition composite_forecast : DataFrame :=
  [ mkRow 3 "Total Vehicle Sales (Verified)" None (Some 1500) None None;
    mkRow 3 "Gross Profit - New Vehicles" None (Some 200) None None ].

Definition service_forecast : DataFrame :=
  [ mkRow 3 "New Vehicles - Retail" None (Some 1000) None None;
    mkRow 3 "Service Contracts" None (Some 50) None None ].

Definition header_example : DataFrame :=
  [ mkRow 1 "Total Sales" (Some 90) (Some 91) None None;
    mkRow 2 "Total Sales" None (Some 100) None None;
    mkRow 2 "total gross profit" None (Some 40) None None ].

Definition proportional_history : HistTable :=
  [ mkHistRow 1 "New Vehicles - Retail" 10;
    mkHistRow 2 "New Vehicles - Retail" 30;
    mkHistRow 1 "Gross Profit - New Vehicles" 25;
    mkHistRow 2 "Gross Profit - New Vehicles" 65 ].

Definition unnamed_row_example : LoadedFrame :=
  [ mkLoadedRow 1 (Some "Service Contracts"%string) (Some 5) (Some 6) None None;
    mkLoadedRow 2 None (Some 7) (Some 8) None None ].

Definition repeated_date_example : DataFrame :=
  [ mkRow 1 "New Vehicles - Retail" (Some 10) (Some 11) None None;
    mkRow 1 "New Vehicles - Retail" (Some 20) (Some 21) None None;
    mkRow 1 "Used Vehicles - Retail" (Some 5) (Some 6) None None ].

(** * Properties *)

(** ** Selections *)

Lemma filter_filter {A : Type} (p q : A -> bool) (l : list A) :
  filter q (filter p l) = filter (fun x => p x && q x) l.
Proof.
  induction l as [|x l IH]; simpl; [reflexivity|].
  destruct (p x); simpl; [destruct (q x)|]; rewrite IH; reflexivity.
Qed.

Lemma iloc0_filter (p : Row -> bool) (l : DataFrame) :
  iloc0 (map predicted_value (filter p l)) =
  match find p l with
  | Some r => Ok (predicted_value r)
  | None => Raise IndexError
  end.
Proof.
  induction l as [|x l IH]; simpl; [reflexivity|].
  destruct (p x); simpl; [reflexivity|exact IH].
Qed.

Lemma future_dates_nil (df : DataFrame) (kpi : string) :
  (forall r, In r df -> english_name r = kpi -> actual_value r <> None) ->
  future_dates df kpi = [].
Proof.
  intros H. unfold future_dates, rows_of. rewrite filter_filter.
  induction df as [|x df IH]; simpl; [reflexivity|].
  destruct (String.eqb_spec (english_name x) kpi) as [E|E]; simpl.
  - destruct (actual_value x) eqn:Ea; simpl.
    + apply IH. intros y Hy. apply H. now right.
    + exfalso. apply (H x); [now left|exact E|exact Ea].
  - apply IH. intros y Hy. apply H. now right.
Qed.

Lemma future_dates_cons (df : DataFrame) (kpi : string) (r : Row) :
  In r df -> english_name r = kpi -> actual_value r = None ->
  exists d l, future_dates df kpi = d :: l.
Proof.
  revert r. intros r0 Hin Hn Ha. unfold future_dates, rows_of.
  rewrite filter_filter.
  assert (Hf : In r0 (filter (fun x => String.eqb (english_name x) kpi
                                      && isna (actual_value x)) df)).
  { apply filter_In. split; [exact Hin|].
    rewrite Hn, String.eqb_refl, Ha. reflexivity. }
  destruct (filter _ df) as [|x l]; [contradiction|].
  exists (date x), (map date l). reflexivity.
Qed.

(** ** Scenario planner *)

(** C9.  When no row of the driver KPI lacks its [actual_value], the
    scenario planner returns normally with the no-future-data outcome: no
    lookup and no calculation happens and nothing is raised, whatever the
    other inputs are. *)
Theorem scenario_no_future_data :
  forall (forecast_df : DataFrame) (cleaned_df : HistTable)
         (driver_kpi impacted_kpi : string)
         (selected_month : Z) (change_percentage : R),
    (forall r, In r forecast_df -> english_name r = driver_kpi ->
               actual_value r <> None) ->
    render_scenario_planner forecast_df cleaned_df driver_kpi impacted_kpi
                            selected_month change_percentage
    = Ok NoFutureData.
Proof.
  intros df h drv imp m p H.
  unfold render_scenario_planner.
  rewrite (future_dates_nil df drv H). reflexivity.
Qed.

Lemma scenario_no_future_data_witness :
  render_scenario_planner history_only [] "New Vehicles - Retail"
                          "Gross Profit - New Vehicles" 1 (10 / 100)
  = Ok NoFutureData.
Proof.
  apply scenario_no_future_data.
  intros r0 [E|[E|[]]] Hn; subst r0; simpl in *; discriminate.
Defined.

(** C1, as stated, at a date where both KPIs have a row with a predicted
    value but the driver has no forecast row: nothing is calculated. *)
Lemma scenario_valid_date_without_forecast :
  (exists rd v, kpi_row_at history_only "New Vehicles - Retail" 1 = Some rd
                /\ predicted_value rd = Some v) /\
  (exists ri w, kpi_row_at history_only "Gross Profit - New Vehicles" 1 = Some ri
                /\ predicted_value ri = Some w) /\
  forall r,
    render_scenario_planner history_only [] "New Vehicles - Retail"
                            "Gross Profit - New Vehicles" 1 (10 / 100)
    <> Ok (Planned r).
Proof.
  split; [|split].
  - eexists. eexists. split; reflexivity.
  - eexists. eexists. split; reflexivity.
  - intros r H. vm_compute in H. discriminate H.
Qed.

(** C1 (amended).  When the driver KPI has at least one forecast row and
    both KPIs have a row with a predicted value at the selected date, the
    planner returns a result whose adjusted driver value is
    originalDriver * (1 + percentChange) and whose adjusted impacted value
    is originalImpacted * (1 + percentChange * corr), [corr] being the
    matrix entry of the pair (0.0 when a KPI is not in the matrix).  For
    1000, 0.10 and 0.5 this gives 1100 and originalImpacted * 1.05, and a
    correlation of 0 leaves the impacted value unchanged for every
    percentChange. *)
Theorem scenario_formula :
  forall (forecast_df : DataFrame) (cleaned_df : HistTable)
         (driver_kpi impacted_kpi : string)
         (selected_month : Z) (change_percentage : R)
         (rf rd ri : Row) (v w : R),
    In rf forecast_df -> english_name rf = driver_kpi ->
    actual_value rf = None ->
    kpi_row_at forecast_df driver_kpi selected_month = Some rd ->
    predicted_value rd = Some v ->
    kpi_row_at forecast_df impacted_kpi selected_month = Some ri ->
    predicted_value ri = Some w ->
    exists res,
      render_scenario_planner forecast_df cleaned_df driver_kpi impacted_kpi
                              selected_month change_percentage
      = Ok (Planned res)
      /\ original_driver_pred res = Some v
      /\ adjusted_driver_pred res = Some (v * (1 + change_percentage))
      /\ original_impacted_pred res = Some w
      /\ correlation res
         = scenario_correlation cleaned_df driver_kpi impacted_kpi
      /\ (forall corr, correlation res = Some corr ->
            adjusted_impacted_pred res
            = Some (w * (1 + change_percentage * corr)))
      /\ (v = 1000 -> change_percentage = 10 / 100 ->
            adjusted_driver_pred res = Some 1100)
      /\ (change_percentage = 10 / 100 -> correlation res = Some (5 / 10) ->
            adjusted_impacted_pred res = Some (w * (105 / 100)))
      /\ (correlation res = Some 0 -> adjusted_impacted_pred res = Some w).
Proof.
  intros df h drv imp m p rf rd ri v w Hin Hn Ha Hd Hv Hi Hw.
  unfold render_scenario_planner.
  destruct (future_dates_cons df drv rf Hin Hn Ha) as (d0 & l0 & ->).
  unfold rows_of. rewrite filter_filter, !iloc0_filter.
  unfold kpi_row_at in Hd, Hi. rewrite Hd, Hi, Hv, Hw. simpl.
  fold (scenario_correlation h drv imp).
  eexists. split; [reflexivity|]. simpl.
  repeat split.
  - intros corr ->. reflexivity.
  - intros -> ->. f_equal. lra.
  - intros -> ->. simpl. f_equal. lra.
  - intros ->. simpl. f_equal. lra.
Qed.

Lemma scenario_formula_witness :
  exists res,
    render_scenario_planner march_forecast [] "New Vehicles - Retail"
                            "Gross Profit - New Vehicles" 3 (10 / 100)
    = Ok (Planned res)
    /\ adjusted_driver_pred res = Some 1100
    /\ adjusted_impacted_pred res = Some 200.
Proof.
  destruct (scenario_formula march_forecast [] "New Vehicles - Retail"
              "Gross Profit - New Vehicles" 3 (10 / 100)
              (mkRow 3 "New Vehicles - Retail" None (Some 1000) None None)
              (mkRow 3 "New Vehicles - Retail" None (Some 1000) None None)
              (mkRow 3 "Gross Profit - New Vehicles" None (Some 200) None None)
              1000 200
              (or_intror (or_introl eq_refl))
              eq_refl eq_refl eq_refl eq_refl eq_refl eq_refl)
    as (res & Hrun & _ & _ & _ & Hc & _ & Hd & _ & Hz).
  exists res. split; [exact Hrun|]. split.
  - apply Hd; reflexivity.
  - apply Hz. rewrite Hc. reflexivity.
Defined.

(** ** KPI deep dive *)

Lemma sorted_app_inv {A : Type} (le : A -> A -> Prop) (l1 l2 : list A) :
  StronglySorted le (l1 ++ l2) ->
  StronglySorted le l1 /\ (forall x y, In x l1 -> In y l2 -> le x y).
Proof.
  induction l1 as [|a l1 IH]; simpl; intros H.
  - split; [constructor|intros x y []].
  - inversion H as [|a' l' Hs Hall]; subst.
    destruct (IH Hs) as [IH1 IH2]. split.
    + constructor; [exact IH1|].
      rewrite Forall_forall in *. intros x Hx. apply Hall.
      apply in_or_app. now left.
    + intros x y [<-|Hx] Hy.
      * rewrite Forall_forall in Hall. apply Hall.
        apply in_or_app. now right.
      * now apply IH2.
Qed.

Lemma sorted_filter {A : Type} (le : A -> A -> Prop) (p : A -> bool)
      (l : list A) :
  StronglySorted le l -> StronglySorted le (filter p l).
Proof.
  induction 1 as [|a l Hs IH Hall]; simpl; [constructor|].
  destruct (p a); [|exact IH].
  constructor; [exact IH|].
  rewrite Forall_forall in *. intros x Hx.
  apply Hall. apply filter_In in Hx. tauto.
Qed.

(** C5 (amended).  On every table the deep dive returns the KPI's rows in
    table order and, as forecast slice, the first 3 rows in table order
    among those without an actual value; nothing is sorted.  When the table
    holds the KPI's rows in ascending date order, the series is ascending
    and the slice consists of the 3 forecast rows with the earliest dates,
    in ascending order. *)
Theorem deep_dive_table_order :
  forall (df : DataFrame) (selected_kpi : string),
    fst (render_kpi_deep_dive df selected_kpi) = rows_of selected_kpi df
    /\ snd (render_kpi_deep_dive df selected_kpi)
       = firstn 3 (forecast_rows df selected_kpi)
    /\ (StronglySorted date_le (rows_of selected_kpi df) ->
        StronglySorted date_le (fst (render_kpi_deep_dive df selected_kpi))
        /\ StronglySorted date_le (snd (render_kpi_deep_dive df selected_kpi))
        /\ (forall r r',
              In r (snd (render_kpi_deep_dive df selected_kpi)) ->
              In r' (skipn 3 (forecast_rows df selected_kpi)) ->
              (date r <= date r')%Z)).
Proof.
  intros df kpi.
  change (fst (render_kpi_deep_dive df kpi)) with (rows_of kpi df).
  change (snd (render_kpi_deep_dive df kpi))
    with (firstn 3 (forecast_rows df kpi)).
  split; [reflexivity|]. split; [reflexivity|].
  intros Hs. split; [exact Hs|].
  assert (Hf : StronglySorted date_le (forecast_rows df kpi))
    by (apply sorted_filter; exact Hs).
  rewrite <- (firstn_skipn 3 (forecast_rows df kpi)) in Hf.
  apply sorted_app_inv in Hf. exact Hf.
Qed.

Lemma deep_dive_table_order_witness :
  map date (snd (render_kpi_deep_dive five_months_ascending "Total Sales"))
  = [2; 3; 4]%Z
  /\ StronglySorted date_le
       (snd (render_kpi_deep_dive five_months_ascending "Total Sales")).
Proof.
  split; [reflexivity|].
  apply (proj2 (proj2 (deep_dive_table_order five_months_ascending
                                             "Total Sales"))).
  simpl. unfold date_le.
  repeat (constructor; [|repeat constructor; simpl; lia]).
  constructor.
Defined.

(** C5, as stated, on a table listing five forecast months latest first:
    the series is not ascending and the slice holds the 3 latest months. *)
Lemma deep_dive_unsorted_table :
  ~ StronglySorted date_le
      (fst (render_kpi_deep_dive five_months_descending "Total Sales"))
  /\ map date (snd (render_kpi_deep_dive five_months_descending "Total Sales"))
     = [5; 4; 3]%Z
  /\ map date (snd (render_kpi_deep_dive five_months_descending "Total Sales"))
     <> [1; 2; 3]%Z.
Proof.
  split; [|split; [reflexivity|discriminate]].
  simpl. intros H. inversion H as [|a l _ Hall]; subst.
  inversion Hall as [|b l' Hle _]; subst.
  unfold date_le in Hle. simpl in Hle. lia.
Qed.

(** ** The KPI catalogue *)

Lemma dict_get_set_same (k v : string) (d : dict) :
  dict_get k (dict_set k v d) = Some v.
Proof.
  induction d as [|[k' v'] d IH]; simpl.
  - rewrite String.eqb_refl. reflexivity.
  - destruct (String.eqb k' k) eqn:E; simpl; rewrite E; [reflexivity|exact IH].
Qed.

Lemma dict_get_set_other (k k0 v : string) (d : dict) :
  k <> k0 -> dict_get k0 (dict_set k v d) = dict_get k0 d.
Proof.
  intros Hne. induction d as [|[k' v'] d IH]; simpl.
  - destruct (String.eqb_spec k k0); [contradiction|reflexivity].
  - destruct (String.eqb_spec k' k) as [->|E]; simpl.
    + destruct (String.eqb_spec k k0); [contradiction|reflexivity].
    + destruct (String.eqb k' k0); [reflexivity|exact IH].
Qed.

Lemma find_app {A : Type} (p : A -> bool) (l1 l2 : list A) :
  find p (l1 ++ l2) =
  match find p l1 with
  | Some x => Some x
  | None => find p l2
  end.
Proof.
  induction l1 as [|a l1 IH]; simpl; [reflexivity|].
  destruct (p a); [reflexivity|exact IH].
Qed.

(** A lookup in the catalogue returns the last of the distinct names that
    normalises to the key. *)
Lemma dict_get_fold (k : string) (l : list string) (d : dict) :
  dict_get k (fold_left (fun d kpi => dict_set (normalize kpi) kpi d) l d) =
  match find (has_key k) (rev l) with
  | Some n => Some n
  | None => dict_get k d
  end.
Proof.
  revert d. induction l as [|x l IH]; intros d; simpl; [reflexivity|].
  rewrite IH, find_app. destruct (find (has_key k) (rev l)); [reflexivity|].
  simpl. unfold has_key at 1.
  destruct (String.eqb_spec (normalize x) k) as [E|E].
  - rewrite E. apply dict_get_set_same.
  - apply dict_get_set_other. exact E.
Qed.

Lemma dict_get_kpi_map (k : string) (l : list string) :
  dict_get k (build_kpi_map l) = find (has_key k) (rev l).
Proof.
  unfold build_kpi_map. rewrite dict_get_fold.
  destruct (find (has_key k) (rev l)); reflexivity.
Qed.

Lemma In_unique (x : string) (l : list string) : In x (unique l) <-> In x l.
Proof.
  induction l as [|a l IH]; simpl; [tauto|].
  rewrite filter_In, IH. split.
  - intros [H|[H _]]; [now left|now right].
  - intros [H|H]; [now left|].
    destruct (String.eqb_spec x a) as [->|E]; [now left|].
    right. split; [exact H|].
    destruct (String.eqb_spec x a); [contradiction|reflexivity].
Qed.

Lemma kpi_map_unresolved (df : DataFrame) (k : string) :
  unresolved df k -> dict_get k (kpi_map_of df) = None.
Proof.
  intros H. unfold kpi_map_of. rewrite dict_get_kpi_map.
  destruct (find (has_key k) (rev (unique (map english_name df)))) eqn:E;
    [|reflexivity].
  apply find_some in E. destruct E as [Hin Hk].
  apply in_rev, In_unique, in_map_iff in Hin.
  destruct Hin as (r & <- & Hr).
  unfold has_key in Hk. apply String.eqb_eq in Hk.
  exfalso. exact (H r Hr Hk).
Qed.

Lemma kpi_map_resolved (df : DataFrame) (k x : string) :
  dict_get k (kpi_map_of df) = Some x ->
  normalize x = k /\ exists r, In r df /\ english_name r = x.
Proof.
  unfold kpi_map_of. rewrite dict_get_kpi_map. intros E.
  apply find_some in E. destruct E as [Hin Hk].
  apply in_rev, In_unique, in_map_iff in Hin.
  destruct Hin as (r & Hn & Hr).
  unfold has_key in Hk. apply String.eqb_eq in Hk.
  split; [exact Hk|]. exists r. split; [exact Hr|exact Hn].
Qed.

(** ** Composite KPIs *)

Lemma add_total_rows (kpi_map : dict) (a_lower b_lower name : string)
      (df_processed : DataFrame) :
  add_total kpi_map a_lower b_lower name df_processed =
  bind (composite_rows kpi_map a_lower b_lower name df_processed)
       (fun rows => Ok (df_processed ++ rows)).
Proof.
  unfold add_total, composite_rows.
  destruct (dict_get a_lower kpi_map), (dict_get b_lower kpi_map);
    simpl; try rewrite app_nil_r; reflexivity.
Qed.

Lemma composite_rows_shape (kpi_map : dict) (a_lower b_lower name : string)
      (df_processed : DataFrame) (rows : list Row) :
  composite_rows kpi_map a_lower b_lower name df_processed = Ok rows ->
  Forall (composite_row name) rows.
Proof.
  unfold composite_rows, total_rows.
  destruct (dict_get a_lower kpi_map) as [a|];
    [destruct (dict_get b_lower kpi_map) as [b|]|].
  - destruct (frame_add_fill0 _ _) as [total|e]; simpl; [|discriminate].
    intros [= <-]. apply Forall_forall. intros r Hr.
    apply in_map_iff in Hr. destruct Hr as (s & <- & _).
    repeat split.
  - intros [= <-]. constructor.
  - intros [= <-]. constructor.
Qed.

(** ** Tables with and without missing names *)

Lemma unique_cells_Some (l : list string) :
  unique_cells (map Some l) = map Some (unique l).
Proof.
  induction l as [|x l IH]; simpl; [reflexivity|]. rewrite IH. f_equal.
  clear IH. induction (unique l) as [|y u IHu]; simpl; [reflexivity|].
  destruct (String.eqb y x); simpl; rewrite IHu; reflexivity.
Qed.

Lemma fold_kpi_map_step_Some (l : list string) (d : dict) :
  fold_left kpi_map_step (map Some l) (Ok d)
  = Ok (fold_left (fun d kpi => dict_set (normalize kpi) kpi d) l d).
Proof.
  revert d. induction l as [|x l IH]; intros d; simpl; [reflexivity|apply IH].
Qed.

Lemma fold_kpi_map_step_raise (l : list (option string)) (e : exn) :
  fold_left kpi_map_step l (Raise e) = Raise e.
Proof. induction l as [|x l IH]; simpl; [reflexivity|exact IH]. Qed.

Lemma fold_kpi_map_step_None (l : list (option string)) (d : dict) :
  In None l -> fold_left kpi_map_step l (Ok d) = Raise AttributeError.
Proof.
  revert d. induction l as [|x l IH]; intros d Hin; simpl; [contradiction|].
  destruct x as [k|]; simpl.
  - apply IH. destruct Hin as [H|H]; [discriminate H|exact H].
  - apply fold_kpi_map_step_raise.
Qed.

Lemma In_unique_cells (x : option string) (l : list (option string)) :
  In x (unique_cells l) <-> In x l.
Proof.
  induction l as [|a l IH]; simpl; [tauto|].
  rewrite filter_In, IH. split.
  - intros [H|[H _]]; [now left|now right].
  - intros [H|H]; [now left|].
    destruct (cell_eqb x a) eqn:E.
    + left. destruct x as [x|], a as [a|]; simpl in E; try discriminate E;
        [apply String.eqb_eq in E; congruence|reflexivity].
    + right. split; [exact H|reflexivity].
Qed.

Lemma named_loaded (df : DataFrame) : named (loaded df) = Ok df.
Proof.
  unfold named, loaded. induction df as [|r df IH]; simpl; [reflexivity|].
  rewrite IH. destruct r. reflexivity.
Qed.

(** On a table with a name in every row the function is the two blocks run
    with the catalogue of its names. *)
Lemma calculate_summary_kpis_loaded (df : DataFrame) :
  calculate_summary_kpis (loaded df) =
  bind (add_total (kpi_map_of df) new_sales_lower used_sales_lower
                  total_sales_name df)
       (add_total (kpi_map_of df) new_gp_lower used_gp_lower total_gp_name).
Proof.
  unfold calculate_summary_kpis, build_kpi_map_cells, kpi_map_of, build_kpi_map.
  replace (map l_english_name (loaded df)) with (map Some (map english_name df))
    by (unfold loaded; rewrite !map_map; reflexivity).
  rewrite unique_cells_Some, fold_kpi_map_step_Some, named_loaded. reflexivity.
Qed.

(** A missing name makes the dict comprehension raise. *)
Lemma calculate_summary_kpis_missing_name (df : LoadedFrame) :
  (exists r, In r df /\ l_english_name r = None) ->
  calculate_summary_kpis df = Raise AttributeError.
Proof.
  intros (r & Hr & Hn). unfold calculate_summary_kpis, build_kpi_map_cells.
  rewrite fold_kpi_map_step_None; [reflexivity|].
  apply In_unique_cells. rewrite <- Hn. apply in_map. exact Hr.
Qed.

Lemma all_named_loaded (df : LoadedFrame) :
  (forall r, In r df -> l_english_name r <> None) ->
  exists df0, df = loaded df0.
Proof.
  induction df as [|r df IH]; intros H; [exists []; reflexivity|].
  destruct IH as (df0 & ->); [intros x Hx; apply H; now right|].
  destruct r as [d [n|] a p lo up].
  - exists (mkRow d n a p lo up :: df0). reflexivity.
  - exfalso. apply (H _ (or_introl eq_refl)). reflexivity.
Qed.

Lemma missing_name_dec (df : LoadedFrame) :
  (exists r, In r df /\ l_english_name r = None)
  \/ (forall r, In r df -> l_english_name r <> None).
Proof.
  induction df as [|r df IH]; [right; intros r []|].
  destruct (l_english_name r) eqn:E.
  - destruct IH as [(x & Hx & Hn)|IH].
    + left. exists x. split; [now right|exact Hn].
    + right. intros x [<-|Hx]; [congruence|exact (IH x Hx)].
  - left. exists r. split; [now left|exact E].
Qed.

(** A table the function returns on has a name in every row. *)
Lemma calculate_summary_kpis_ok_named (df : LoadedFrame) (df' : DataFrame) :
  calculate_summary_kpis df = Ok df' -> exists df0, df = loaded df0.
Proof.
  intros H. destruct (missing_name_dec df) as [Hm|Hn].
  - rewrite (calculate_summary_kpis_missing_name df Hm) in H. discriminate H.
  - apply all_named_loaded. exact Hn.
Qed.

Lemma loaded_length (df : DataFrame) :
  List.length (loaded df) = List.length df.
Proof. unfold loaded. apply length_map. Qed.

(** The two blocks of [calculate_summary_kpis], as appended rows. *)
Lemma calculate_summary_kpis_rows (df df' : DataFrame) :
  calculate_summary_kpis (loaded df) = Ok df' ->
  exists sales gp,
    composite_rows (kpi_map_of df) new_sales_lower used_sales_lower
                   total_sales_name df = Ok sales
    /\ composite_rows (kpi_map_of df) new_gp_lower used_gp_lower
                      total_gp_name (df ++ sales) = Ok gp
    /\ df' = df ++ sales ++ gp.
Proof.
  rewrite calculate_summary_kpis_loaded.
  rewrite add_total_rows.
  destruct (composite_rows _ new_sales_lower _ _ df) as [sales|e] eqn:Es;
    simpl; [|discriminate].
  rewrite add_total_rows.
  destruct (composite_rows _ new_gp_lower _ _ (df ++ sales)) as [gp|e] eqn:Eg;
    simpl; [|discriminate].
  intros [= <-]. exists sales, gp.
  split; [reflexivity|]. split; [exact Eg|]. symmetry. apply app_assoc.
Qed.

Lemma skipn_length_app {A : Type} (l1 l2 : list A) :
  skipn (List.length l1) (l1 ++ l2) = l2.
Proof. induction l1 as [|a l1 IH]; simpl; [reflexivity|exact IH]. Qed.

(** C8.  The loader lets this table through: it has rows and a KPI name.
    None of its names normalises to a component key, so no composite is to
    be built and the table should come back as it is; but its second row
    has no name, the dict comprehension calls [lower] on NaN and
    [calculate_summary_kpis] raises [AttributeError]. *)
Theorem composite_missing_name_raises :
  forecast_stops unnamed_row_example = false
  /\ (forall r n, In r unnamed_row_example -> l_english_name r = Some n ->
                  ~ In (normalize n) component_keys)
  /\ calculate_summary_kpis unnamed_row_example = Raise AttributeError.
Proof.
  split; [reflexivity|]. split; [|reflexivity].
  intros r n [<-|[<-|[]]] [= <-]. vm_compute. intuition discriminate.
Qed.

(** X18.  On a table with a name in every row: whenever
    [calculate_summary_kpis] returns a table, the input table is its initial
    segment, so rows are only appended.  A block whose component fails to
    resolve returns its table as it is, and when that is so for both
    composites the function returns exactly the input table, raising
    nothing. *)
Theorem composite_frame :
  forall (df : DataFrame),
    (forall df', calculate_summary_kpis (loaded df) = Ok df' ->
                 exists appended, df' = df ++ appended)
    /\ (forall a_lower b_lower name df_processed,
          unresolved df a_lower \/ unresolved df b_lower ->
          add_total (kpi_map_of df) a_lower b_lower name df_processed
          = Ok df_processed)
    /\ (unresolved df new_sales_lower \/ unresolved df used_sales_lower ->
        unresolved df new_gp_lower \/ unresolved df used_gp_lower ->
        calculate_summary_kpis (loaded df) = Ok df).
Proof.
  intros df.
  assert (Hblock : forall a_lower b_lower name df_processed,
             unresolved df a_lower \/ unresolved df b_lower ->
             add_total (kpi_map_of df) a_lower b_lower name df_processed
             = Ok df_processed).
  { intros a b name dfp [H|H]; unfold add_total;
      rewrite (kpi_map_unresolved df _ H); [reflexivity|].
    destruct (dict_get a (kpi_map_of df)); reflexivity. }
  split; [|split].
  - intros df' H. apply calculate_summary_kpis_rows in H.
    destruct H as (sales & gp & _ & _ & ->). exists (sales ++ gp). reflexivity.
  - exact Hblock.
  - intros Hs Hg. rewrite calculate_summary_kpis_loaded.
    rewrite (Hblock _ _ _ _ Hs). simpl. apply Hblock. exact Hg.
Qed.

Lemma composite_frame_witness :
  calculate_summary_kpis (loaded no_used_vehicles) = Ok no_used_vehicles.
Proof.
  apply (proj2 (proj2 (composite_frame no_used_vehicles))).
  - right. intros r [E|[E|[]]]; subst r; vm_compute; discriminate.
  - left. intros r [E|[E|[]]]; subst r; vm_compute; discriminate.
Defined.

(** C10.  Every row [calculate_summary_kpis] appends bears one of the two
    composite names and has no value in the confidence-interval columns
    [yhat_lower] and [yhat_upper], whatever the component rows hold there. *)
Theorem composite_rows_carry_no_band :
  forall (df : LoadedFrame) (df' : DataFrame) (r : Row),
    calculate_summary_kpis df = Ok df' ->
    In r (skipn (List.length df) df') ->
    (english_name r = total_sales_name \/ english_name r = total_gp_name)
    /\ yhat_lower r = None /\ yhat_upper r = None.
Proof.
  intros raw df' r H Hin.
  destruct (calculate_summary_kpis_ok_named raw df' H) as (df & ->).
  rewrite loaded_length in Hin. apply calculate_summary_kpis_rows in H.
  destruct H as (sales & gp & Hs & Hg & ->).
  rewrite skipn_length_app in Hin.
  apply composite_rows_shape in Hs, Hg. rewrite Forall_forall in Hs, Hg.
  apply in_app_or in Hin. destruct Hin as [Hin|Hin].
  - destruct (Hs r Hin) as (Hn & Hl & Hu). auto.
  - destruct (Hg r Hin) as (Hn & Hl & Hu). auto.
Qed.

Lemma composite_rows_carry_no_band_witness :
  calculate_summary_kpis (loaded banded_sales) = Ok banded_sales_total
  /\ yhat_lower (mkRow 2 "Total Vehicle Sales (Verified)" None
                       (Some (12 + 7)) None None) = None.
Proof.
  split; [reflexivity|].
  apply (composite_rows_carry_no_band (loaded banded_sales)
                                      banded_sales_total).
  - reflexivity.
  - simpl. right. left. reflexivity.
Defined.

(** The cell rule of [add(..., fill_value=0)] where both operands have a
    row: a missing side counts as 0, two missing sides stay missing. *)
Lemma add_fill_rule (l r : value) :
  add_fill l r =
  match l, r with
  | None, None => None
  | _, _ => Some (fillna0 l + fillna0 r)
  end.
Proof. destruct l, r; reflexivity. Qed.

(** Operands with the same index are summed row by row and nothing is
    raised: the composite has one row per row of the first component. *)
Lemma frame_add_same_index (a b : DataFrame) :
  map date a = map date b ->
  exists total,
    frame_add_fill0 a b = Ok total
    /\ map s_date total = map date a
    /\ map s_actual_value total
       = map (fun p => add_fill (actual_value (fst p)) (actual_value (snd p)))
             (combine a b)
    /\ map s_predicted_value total
       = map (fun p => add_fill (predicted_value (fst p))
                                (predicted_value (snd p)))
             (combine a b).
Proof.
  intros H. unfold frame_add_fill0, align.
  replace (dates_eqb (map date a) (map date b)) with true.
  2:{ rewrite <- H. clear. induction (map date a) as [|x l IH]; simpl;
      [reflexivity|]. rewrite Z.eqb_refl. exact IH. }
  revert b H. induction a as [|x a IH]; intros [|y b] H; simpl in *;
    try discriminate.
  - exists []. repeat split.
  - injection H as Hd Ht. destruct (IH b Ht) as (t & -> & H1 & H2 & H3).
    simpl. eexists. split; [reflexivity|]. simpl.
    rewrite H1, H2, H3. repeat split.
Qed.

(** C3.  On components with dates {1, 2} and {2, 3} the two operands are
    re-indexed on {1, 2, 3}; the string column [english_name] then has a
    missing side at dates 1 and 3, and the addition raises [TypeError]: no
    composite row is produced for any date of the union. *)
Theorem composite_union_dates_raises :
  union_dates (map date (rows_of "New Vehicles - Retail" union_example))
              (map date (rows_of "Used Vehicles - Retail" union_example))
  = [1; 2; 3]%Z
  /\ calculate_summary_kpis (loaded union_example) = Raise TypeError.
Proof. split; reflexivity. Qed.

(** C2.  Date 2 has a row of the second component only, with actual value
    50: the composite value there would be 0 + 50, but the addition raises
    [TypeError] on the [english_name] column and no composite row exists,
    neither at date 2 nor at date 1 where both sides have a value. *)
Theorem composite_one_sided_date_raises :
  row_at 2 (rows_of "Gross Profit - New Vehicles" one_sided_example) = None
  /\ option_map actual_value
       (row_at 2 (rows_of "Gross Profit - Used Vehicles" one_sided_example))
     = Some (Some 50)
  /\ calculate_summary_kpis (loaded one_sided_example) = Raise TypeError.
Proof. repeat split. Qed.

(** ** Running the composite build on its own output *)

Lemma find_hd_filter {A : Type} (p : A -> bool) (l : list A) :
  find p l = hd_error (filter p l).
Proof.
  induction l as [|a l IH]; simpl; [reflexivity|].
  destruct (p a); [reflexivity|exact IH].
Qed.

Lemma filter_rev_comm {A : Type} (p : A -> bool) (l : list A) :
  filter p (rev l) = rev (filter p l).
Proof.
  induction l as [|a l IH]; simpl; [reflexivity|].
  rewrite filter_app, IH. simpl. destruct (p a); simpl;
    [reflexivity|apply app_nil_r].
Qed.

Lemma filter_swap {A : Type} (p q : A -> bool) (l : list A) :
  filter p (filter q l) = filter q (filter p l).
Proof.
  rewrite !filter_filter. apply filter_ext. intros x. apply andb_comm.
Qed.

Lemma filter_none {A : Type} (p : A -> bool) (l : list A) :
  (forall x, In x l -> p x = false) -> filter p l = [].
Proof.
  induction l as [|a l IH]; simpl; intros H; [reflexivity|].
  rewrite (H a (or_introl eq_refl)). apply IH. intros x Hx. apply H. now right.
Qed.

Lemma filter_unique_app (p : string -> bool) (l1 l2 : list string) :
  (forall n, In n l2 -> p n = false) ->
  filter p (unique (l1 ++ l2)) = filter p (unique l1).
Proof.
  intros H. induction l1 as [|x l1 IH]; simpl.
  - apply filter_none. intros n Hn. apply H. apply In_unique. exact Hn.
  - rewrite (filter_swap p), (filter_swap p _ (unique l1)), IH. reflexivity.
Qed.

Lemma kpi_map_app (d e : DataFrame) (k : string) :
  unresolved e k ->
  dict_get k (kpi_map_of (d ++ e)) = dict_get k (kpi_map_of d).
Proof.
  intros H. unfold kpi_map_of.
  rewrite !dict_get_kpi_map, !find_hd_filter, !filter_rev_comm, map_app.
  rewrite filter_unique_app; [reflexivity|].
  intros n Hn. apply in_map_iff in Hn. destruct Hn as (r & <- & Hr).
  unfold has_key. apply String.eqb_neq. exact (H r Hr).
Qed.

Lemma rows_of_app_other (x : string) (d e : DataFrame) :
  (forall r, In r e -> english_name r <> x) ->
  rows_of x (d ++ e) = rows_of x d.
Proof.
  intros H. unfold rows_of. rewrite filter_app.
  rewrite (filter_none _ e); [apply app_nil_r|].
  intros r Hr. apply String.eqb_neq. exact (H r Hr).
Qed.

Lemma composite_rows_agree (km km' : dict) (a b name : string)
      (d d' : DataFrame) :
  dict_get a km' = dict_get a km ->
  dict_get b km' = dict_get b km ->
  (forall x, dict_get a km = Some x -> rows_of x d' = rows_of x d) ->
  (forall y, dict_get b km = Some y -> rows_of y d' = rows_of y d) ->
  composite_rows km' a b name d' = composite_rows km a b name d.
Proof.
  intros Ha Hb Hx Hy. unfold composite_rows. rewrite Ha, Hb.
  destruct (dict_get a km) as [x|]; [|reflexivity].
  destruct (dict_get b km) as [y|]; [|reflexivity].
  unfold total_rows. rewrite (Hx x eq_refl), (Hy y eq_refl). reflexivity.
Qed.

(** The composite names are no component keys: composite rows never resolve
    as a component. *)
Lemma totals_unresolved (e : DataFrame) (k : string) :
  In k component_keys -> Forall is_total e -> unresolved e k.
Proof.
  intros Hk He r Hr. rewrite Forall_forall in He.
  destruct (He r Hr) as [-> | ->];
    destruct Hk as [<-|[<-|[<-|[<-|[]]]]]; vm_compute; discriminate.
Qed.

Lemma rows_of_totals (df base e : DataFrame) (k x : string) :
  In k component_keys ->
  dict_get k (kpi_map_of df) = Some x ->
  Forall is_total e ->
  rows_of x (base ++ e) = rows_of x base.
Proof.
  intros Hk Hx He. apply rows_of_app_other. intros r Hr E.
  apply kpi_map_resolved in Hx. destruct Hx as [Hn _].
  apply (totals_unresolved e k Hk He r Hr). rewrite E. exact Hn.
Qed.

Lemma composite_rows_totals (df d e1 e2 : DataFrame) (a b name : string) :
  In a component_keys -> In b component_keys ->
  Forall is_total e1 -> Forall is_total e2 ->
  composite_rows (kpi_map_of (df ++ e1)) a b name (d ++ e2)
  = composite_rows (kpi_map_of df) a b name d.
Proof.
  intros Ha Hb He1 He2. apply composite_rows_agree.
  - apply kpi_map_app, totals_unresolved; assumption.
  - apply kpi_map_app, totals_unresolved; assumption.
  - intros x Hx. exact (rows_of_totals df d e2 a x Ha Hx He2).
  - intros y Hy. exact (rows_of_totals df d e2 b y Hb Hy He2).
Qed.

(** C4 (amended).  [calculate_summary_kpis] is a function of its input
    table, so two runs on the same table agree; it is not idempotent: run
    on its own output it resolves the same components, computes the same
    composite rows and appends them a second time. *)
Theorem composite_rerun_appends_again :
  forall (df : LoadedFrame) (df' : DataFrame),
    calculate_summary_kpis df = Ok df' ->
    calculate_summary_kpis (loaded df')
    = Ok (df' ++ skipn (List.length df) df').
Proof.
  intros raw df' H.
  destruct (calculate_summary_kpis_ok_named raw df' H) as (df & ->).
  rewrite loaded_length. apply calculate_summary_kpis_rows in H.
  destruct H as (sales & gp & Hs & Hg & ->).
  rewrite skipn_length_app.
  assert (Hts : Forall is_total sales).
  { apply composite_rows_shape in Hs. eapply Forall_impl; [|exact Hs].
    intros r (Hn & _). now left. }
  assert (Htg : Forall is_total gp).
  { apply composite_rows_shape in Hg. eapply Forall_impl; [|exact Hg].
    intros r (Hn & _). now right. }
  assert (He : Forall is_total (sales ++ gp))
    by (apply Forall_app; split; assumption).
  rewrite calculate_summary_kpis_loaded.
  rewrite add_total_rows, composite_rows_totals, Hs;
    [|simpl; tauto|simpl; tauto|exact He|exact He].
  simpl. rewrite add_total_rows.
  replace ((df ++ sales ++ gp) ++ sales)
    with ((df ++ sales) ++ gp ++ sales)
    by (rewrite <- !app_assoc; reflexivity).
  rewrite composite_rows_totals, Hg;
    [|simpl; tauto|simpl; tauto|exact He
     |apply Forall_app; split; assumption].
  simpl. rewrite <- !app_assoc. reflexivity.
Qed.

Lemma composite_rerun_appends_again_witness :
  calculate_summary_kpis (loaded banded_sales_total) = Ok banded_sales_twice.
Proof.
  apply (composite_rerun_appends_again (loaded banded_sales)
                                       banded_sales_total).
  reflexivity.
Defined.

(** C4, as stated, on a table with both sales components: the second run,
    on the output of the first, does not return that output but a table two
    rows longer. *)
Lemma composite_rerun_not_idempotent :
  calculate_summary_kpis (loaded banded_sales) = Ok banded_sales_total
  /\ calculate_summary_kpis (loaded banded_sales_total) <> Ok banded_sales_total
  /\ (exists df2, calculate_summary_kpis (loaded banded_sales_total) = Ok df2
                  /\ List.length df2 = (List.length banded_sales_total + 2)%nat).
Proof.
  split; [reflexivity|]. split.
  - intros H. apply (f_equal (fun r => match r with
                                       | Ok l => List.length l
                                       | Raise _ => O
                                       end)) in H.
    vm_compute in H. discriminate H.
  - exists banded_sales_twice. split; reflexivity.
Qed.

(** ** Correlation matrix *)

Lemma observations_fst (t : HistTable) (a b : string) :
  map fst (observations t a b) = pivot_column t a.
Proof. unfold observations, pivot_column. rewrite map_map. reflexivity. Qed.

Lemma observations_snd (t : HistTable) (a b : string) :
  map snd (observations t a b) = pivot_column t b.
Proof. unfold observations, pivot_column. rewrite map_map. reflexivity. Qed.

Lemma rsum_nonneg (l : list R) :
  (forall x, In x l -> 0 <= x) -> 0 <= rsum l.
Proof.
  induction l as [|a l IH]; simpl; intros H; [lra|].
  assert (0 <= a) by (apply H; now left).
  assert (0 <= rsum l) by (apply IH; intros x Hx; apply H; now right).
  lra.
Qed.

Lemma ssqd_nonneg (xs : list R) : 0 <= ssqd xs.
Proof.
  unfold ssqd. apply rsum_nonneg. intros y Hy.
  apply in_map_iff in Hy. destruct Hy as (x & <- & _).
  unfold sq_dev. generalize (x - rsum xs / INR (List.length xs)).
  intros z. nra.
Qed.

Lemma covariation_deviations (pts : list (R * R)) :
  covariation pts = rsum (map (fun q => fst q * snd q) (deviations pts)).
Proof. unfold covariation, deviations. rewrite map_map. reflexivity. Qed.

Lemma ssqd_fst_deviations (pts : list (R * R)) :
  ssqd (map fst pts) = rsum (map (fun q => fst q * fst q) (deviations pts)).
Proof.
  unfold ssqd, deviations. rewrite !map_map, length_map. reflexivity.
Qed.

Lemma ssqd_snd_deviations (pts : list (R * R)) :
  ssqd (map snd pts) = rsum (map (fun q => snd q * snd q) (deviations pts)).
Proof.
  unfold ssqd, deviations. rewrite !map_map, length_map. reflexivity.
Qed.

Lemma cauchy_schwarz_step (A B C u v : R) :
  0 <= A -> 0 <= B -> C * C <= A * B ->
  (C + u * v) * (C + u * v) <= (A + u * u) * (B + v * v).
Proof.
  intros HA HB HC.
  assert (Hmix : 2 * (u * v) * C <= A * (v * v) + B * (u * u)).
  { destruct (Rle_lt_dec (2 * (u * v) * C) (A * (v * v) + B * (u * u)))
      as [Hle|Hlt]; [exact Hle|exfalso].
    assert (Hv : 0 <= v * v) by nra.
    assert (Hu : 0 <= u * u) by nra.
    assert (H0 : 0 <= A * (v * v) + B * (u * u)) by nra.
    assert (H1 : (A * (v * v) + B * (u * u)) * (A * (v * v) + B * (u * u))
                 < (2 * (u * v) * C) * (2 * (u * v) * C)) by nra.
    assert (H2 := Rle_0_sqr (u * v)).
    assert (H3 : (u * v) * (u * v) * (C * C) <= (u * v) * (u * v) * (A * B))
      by (apply Rmult_le_compat_l; assumption).
    assert (H4 := Rle_0_sqr (A * (v * v) - B * (u * u))).
    unfold Rsqr in H4. clear - H1 H3 H4. nra. }
  clear - Hmix HC. nra.
Qed.

(** Cauchy-Schwarz for finite sums of products. *)
Lemma cauchy_schwarz (l : list (R * R)) :
  rsum (map (fun q => fst q * snd q) l) * rsum (map (fun q => fst q * snd q) l)
  <= rsum (map (fun q => fst q * fst q) l)
     * rsum (map (fun q => snd q * snd q) l).
Proof.
  induction l as [|[u v] l IH]; simpl; [lra|].
  rewrite (Rplus_comm (u * v)), (Rplus_comm (u * u)), (Rplus_comm (v * v)).
  apply cauchy_schwarz_step; [| |exact IH];
    apply rsum_nonneg; intros y Hy; apply in_map_iff in Hy;
    destruct Hy as (q & <- & _); nra.
Qed.

Lemma covariation_bound (pts : list (R * R)) :
  covariation pts * covariation pts
  <= ssqd (map fst pts) * ssqd (map snd pts).
Proof.
  rewrite covariation_deviations, ssqd_fst_deviations, ssqd_snd_deviations.
  apply cauchy_schwarz.
Qed.

Lemma pearson_cons (p : R * R) (l : list (R * R)) :
  pearson (p :: l) =
  if Req_dec_T (sqrt (ssqd (map fst (p :: l)) * ssqd (map snd (p :: l)))) 0
  then None
  else Some (covariation (p :: l)
             / sqrt (ssqd (map fst (p :: l)) * ssqd (map snd (p :: l)))).
Proof. reflexivity. Qed.

(** A cell of [corr]: NaN exactly when there is no observation or one of the
    two series has no squared deviation, otherwise a number of [-1, 1]. *)
Lemma pearson_range (pts : list (R * R)) :
  match pearson pts with
  | Some r => -1 <= r <= 1
  | None => pts = [] \/ ssqd (map fst pts) = 0 \/ ssqd (map snd pts) = 0
  end.
Proof.
  destruct pts as [|p l]; [simpl; now left|].
  rewrite pearson_cons.
  set (sx := ssqd (map fst (p :: l))).
  set (sy := ssqd (map snd (p :: l))).
  set (c := covariation (p :: l)).
  assert (Hsx : 0 <= sx) by apply ssqd_nonneg.
  assert (Hsy : 0 <= sy) by apply ssqd_nonneg.
  assert (Hc : c * c <= sx * sy) by apply covariation_bound.
  assert (Hp : 0 <= sx * sy) by nra.
  destruct (Req_dec_T (sqrt (sx * sy)) 0) as [E|E].
  - right. apply sqrt_eq_0 in E; [|exact Hp].
    apply Rmult_integral in E. exact E.
  - assert (Hd : 0 <= sqrt (sx * sy)) by apply sqrt_pos.
    assert (Hdd : sqrt (sx * sy) * sqrt (sx * sy) = sx * sy)
      by (apply sqrt_sqrt; exact Hp).
    set (dv := sqrt (sx * sy)) in *.
    assert (Hpos : 0 < dv) by lra.
    assert (Hq : c / dv * dv = c) by (field; lra).
    assert (Hin : / dv > 0) by (apply Rinv_0_lt_compat; exact Hpos).
    assert (Hcd : - dv <= c <= dv) by nra.
    split.
    + apply Rmult_le_reg_r with dv; [exact Hpos|]. rewrite Hq. lra.
    + apply Rmult_le_reg_r with dv; [exact Hpos|]. rewrite Hq. lra.
Qed.

Lemma covariation_swap (pts : list (R * R)) :
  covariation (map swap pts) = covariation pts.
Proof.
  unfold covariation. rewrite !map_map, length_map. simpl.
  f_equal. apply map_ext. intros q. apply Rmult_comm.
Qed.

Lemma pearson_swap (pts : list (R * R)) :
  pearson (map swap pts) = pearson pts.
Proof.
  destruct pts as [|p l]; [reflexivity|].
  change (map swap (p :: l)) with (swap p :: map swap l).
  rewrite !pearson_cons.
  change (swap p :: map swap l) with (map swap (p :: l)).
  rewrite covariation_swap, !map_map. simpl fst. simpl snd.
  change (fun x : R * R => snd x) with (@snd R R).
  change (fun x : R * R => fst x) with (@fst R R).
  rewrite (Rmult_comm (ssqd (map snd (p :: l)))). reflexivity.
Qed.

Lemma observations_swap (t : HistTable) (a b : string) :
  observations t b a = map swap (observations t a b).
Proof. unfold observations. rewrite map_map. reflexivity. Qed.

Lemma covariation_diagonal (pts : list (R * R)) :
  map snd pts = map fst pts -> covariation pts = ssqd (map fst pts).
Proof.
  intros H. unfold covariation, ssqd. rewrite H, map_map, length_map.
  f_equal.
  assert (Hp : forall q, In q pts -> snd q = fst q).
  { clear - H. induction pts as [|q l IH]; simpl in *; [intros ? []|].
    injection H as Hq Hl. intros q' [<-|Hq']; [exact Hq|now apply IH]. }
  apply map_ext_in. intros q Hq. rewrite (Hp q Hq). reflexivity.
Qed.

Lemma pearson_none_iff (pts : list (R * R)) :
  pearson pts = None <-> ssqd (map fst pts) = 0 \/ ssqd (map snd pts) = 0.
Proof.
  split.
  - intros H. pose proof (pearson_range pts) as Hr. rewrite H in Hr.
    destruct Hr as [-> | Hr]; [left; reflexivity|exact Hr].
  - intros H. destruct pts as [|p l]; [reflexivity|].
    rewrite pearson_cons.
    replace (ssqd (map fst (p :: l)) * ssqd (map snd (p :: l))) with 0
      by (destruct H as [-> | ->]; ring).
    rewrite sqrt_0.
    destruct (Req_dec_T 0 0) as [_|E]; [reflexivity|contradiction].
Qed.

Lemma ssqd_single (xs : list R) :
  (List.length xs <= 1)%nat -> ssqd xs = 0.
Proof.
  destruct xs as [|x [|y l]]; simpl; intros H.
  - reflexivity.
  - unfold ssqd, sq_dev. simpl. field.
  - lia.
Qed.

(** C6.  The correlation matrix is symmetric: the entries of (a, b) and
    (b, a) hold the same cell for every pair of KPI names, both NaN or both
    the same number, and so does the correlation the planner reads for the
    pair; the diagonal entry of a KPI whose zero-filled series has a nonzero
    sum of squared deviations (nonzero variance) is 1. *)
Theorem correlation_symmetric_unit_diagonal :
  forall (t : HistTable) (a b : string),
    correlation_matrix t a b = correlation_matrix t b a
    /\ scenario_correlation t a b = scenario_correlation t b a
    /\ (ssqd (pivot_column t a) <> 0 -> correlation_matrix t a a = Some 1).
Proof.
  intros t a b. unfold scenario_correlation, correlation_matrix.
  assert (Hsym : pearson (observations t a b) = pearson (observations t b a)).
  { rewrite (observations_swap t a b). symmetry. apply pearson_swap. }
  split; [exact Hsym|]. split.
  - rewrite (andb_comm (in_columns a t)), Hsym. reflexivity.
  - intros Hv.
    pose proof (observations_fst t a a) as Hf.
    pose proof (observations_snd t a a) as Hs.
    destruct (observations t a a) as [|p l] eqn:E.
    + exfalso. apply Hv. rewrite <- Hf. reflexivity.
    + rewrite pearson_cons, covariation_diagonal by congruence.
      rewrite Hf, Hs.
      set (s := ssqd (pivot_column t a)) in *.
      assert (Hpos : 0 <= s) by apply ssqd_nonneg.
      rewrite (sqrt_square s Hpos).
      destruct (Req_dec_T s 0) as [E0|E0]; [contradiction|].
      f_equal. field. exact E0.
Qed.

Lemma new_vehicles_series :
  pivot_column two_month_history "New Vehicles - Retail"
  = [(10 + 0) / 1; (30 + 0) / 1].
Proof. reflexivity. Qed.

Lemma service_contracts_series :
  pivot_column two_month_history "Service Contracts"
  = [(5 + 0) / 1; (5 + 0) / 1].
Proof. reflexivity. Qed.

Lemma correlation_symmetric_unit_diagonal_witness :
  correlation_matrix two_month_history "New Vehicles - Retail"
                     "New Vehicles - Retail" = Some 1.
Proof.
  apply (proj2 (proj2 (correlation_symmetric_unit_diagonal
           two_month_history "New Vehicles - Retail" "Service Contracts"))).
  rewrite new_vehicles_series. unfold ssqd, sq_dev. simpl. lra.
Defined.

(** C7 (amended).  An entry of the correlation matrix is NaN exactly when
    Pearson's coefficient is undefined for the pair, that is when one of the
    two zero-filled series has no squared deviation from its mean (as with
    fewer than 2 dates), and is otherwise a number of [-1, 1].  An undefined
    entry stays NaN; nothing coerces it to 0.0. *)
Theorem correlation_entry_range :
  forall (t : HistTable) (a b : string),
    (correlation_matrix t a b = None <->
     ssqd (pivot_column t a) = 0 \/ ssqd (pivot_column t b) = 0)
    /\ (forall r, correlation_matrix t a b = Some r -> -1 <= r <= 1)
    /\ ((List.length (pivot_index t) <= 1)%nat ->
        correlation_matrix t a b = None).
Proof.
  intros t a b. unfold correlation_matrix.
  assert (Hiff : pearson (observations t a b) = None <->
                 ssqd (pivot_column t a) = 0 \/ ssqd (pivot_column t b) = 0).
  { rewrite pearson_none_iff, observations_fst, observations_snd. tauto. }
  split; [exact Hiff|]. split.
  - intros r H. pose proof (pearson_range (observations t a b)) as Hr.
    rewrite H in Hr. exact Hr.
  - intros Hlen. apply Hiff. left. apply ssqd_single.
    unfold pivot_column. rewrite length_map. exact Hlen.
Qed.

Lemma correlation_entry_range_witness :
  correlation_matrix one_month_history "New Vehicles - Retail"
                     "Used Vehicles - Retail" = None.
Proof.
  apply (proj2 (proj2 (correlation_entry_range
                         one_month_history "New Vehicles - Retail"
                         "Used Vehicles - Retail"))).
  simpl. lia.
Defined.

(** C7, as stated, on a history in which one KPI is constant: both KPIs are
    columns of the matrix, and their entry is NaN, not 0.0; the planner
    takes that NaN as its correlation. *)
Lemma correlation_undefined_stays_nan :
  in_columns "New Vehicles - Retail" two_month_history = true
  /\ in_columns "Service Contracts" two_month_history = true
  /\ correlation_matrix two_month_history "New Vehicles - Retail"
                        "Service Contracts" = None
  /\ correlation_matrix two_month_history "New Vehicles - Retail"
                        "Service Contracts" <> Some 0
  /\ scenario_correlation two_month_history "New Vehicles - Retail"
                          "Service Contracts" = None.
Proof.
  assert (H : correlation_matrix two_month_history "New Vehicles - Retail"
                                 "Service Contracts" = None).
  { unfold correlation_matrix. apply pearson_none_iff. right.
    rewrite observations_snd, service_contracts_series.
    unfold ssqd, sq_dev. simpl. lra. }
  split; [reflexivity|]. split; [reflexivity|]. split; [exact H|].
  split; [rewrite H; discriminate|].
  unfold scenario_correlation.
  replace (in_columns "New Vehicles - Retail" two_month_history) with true
    by reflexivity.
  replace (in_columns "Service Contracts" two_month_history) with true
    by reflexivity.
  exact H.
Qed.

(** ** Components whose dates differ *)

Lemma In_insert_date (d x : Z) (l : list Z) :
  In d (insert_date x l) <-> d = x \/ In d l.
Proof.
  induction l as [|y l IH]; simpl; [intuition congruence|].
  destruct (Z.ltb_spec x y) as [Hlt|Hge]; simpl; [intuition congruence|].
  destruct (Z.eqb_spec x y) as [->|Hne]; simpl; [intuition congruence|].
  rewrite IH. intuition congruence.
Qed.

Lemma In_union_dates (d : Z) (a b : list Z) :
  In d (union_dates a b) <-> In d a \/ In d b.
Proof.
  unfold union_dates. rewrite <- in_app_iff.
  induction (a ++ b) as [|x l IH]; simpl; [tauto|].
  rewrite In_insert_date, IH. intuition congruence.
Qed.

Lemma dates_eqb_eq (a b : list Z) : dates_eqb a b = true -> a = b.
Proof.
  revert b. induction a as [|x a IH]; intros [|y b]; simpl;
    try discriminate; [reflexivity|].
  intros H. apply andb_prop in H. destruct H as [Hx Hl].
  apply Z.eqb_eq in Hx. rewrite Hx, (IH b Hl). reflexivity.
Qed.

Lemma row_at_absent (d : Z) (f : DataFrame) :
  ~ In d (map date f) -> row_at d f = None.
Proof.
  intros H. unfold row_at.
  destruct (find (fun r => (date r =? d)%Z) f) as [r0|] eqn:E; [|reflexivity].
  apply find_some in E. destruct E as [Hin Hd]. apply Z.eqb_eq in Hd.
  exfalso. apply H. rewrite <- Hd. apply in_map. exact Hin.
Qed.

Lemma row_at_present (d : Z) (f : DataFrame) :
  In d (map date f) -> exists r0, row_at d f = Some r0.
Proof.
  intros H. unfold row_at.
  destruct (find (fun r => (date r =? d)%Z) f) as [r0|] eqn:E;
    [exists r0; reflexivity|exfalso].
  apply in_map_iff in H. destruct H as (r0 & Hd & Hin).
  pose proof (find_none _ _ E r0 Hin) as Hn. simpl in Hn.
  rewrite Hd, Z.eqb_refl in Hn. discriminate Hn.
Qed.

Lemma add_rows_raises_type_error (p : Z * option Row * option Row) (e : exn) :
  add_rows p = Raise e -> e = TypeError.
Proof.
  destruct p as [[d [ra|]] [rb|]]; simpl; intros H;
    try discriminate H; injection H as <-; reflexivity.
Qed.

Lemma mapM_raises {A B : Type} (f : A -> result B) (l : list A) (x : A) :
  (forall y e, f y = Raise e -> e = TypeError) ->
  In x l -> f x = Raise TypeError -> mapM f l = Raise TypeError.
Proof.
  intros Hexn. induction l as [|a l IH]; simpl; intros Hin Hx; [contradiction|].
  destruct (f a) as [y|e] eqn:Ea; simpl.
  - destruct Hin as [->|Hin]; [congruence|].
    rewrite (IH Hin Hx). reflexivity.
  - rewrite (Hexn a e Ea). reflexivity.
Qed.

(** A date with a row on one side only makes the addition raise. *)
Lemma rows_at_In (d : Z) (f : DataFrame) (x : Row) :
  In x (rows_at d f) <-> In x f /\ date x = d.
Proof.
  unfold rows_at. rewrite filter_In, Z.eqb_eq. tauto.
Qed.

Lemma rows_at_nil (d : Z) (f : DataFrame) :
  rows_at d f = [] <-> ~ In d (map date f).
Proof.
  split.
  - intros E H. apply in_map_iff in H. destruct H as (x & Hd & Hx).
    assert (Hin : In x (rows_at d f)) by (apply rows_at_In; tauto).
    rewrite E in Hin. contradiction.
  - intros H. destruct (rows_at d f) as [|x l] eqn:E; [reflexivity|exfalso].
    assert (Hin : In x (rows_at d f)) by (rewrite E; now left).
    apply rows_at_In in Hin. destruct Hin as [Hin <-].
    apply H. apply in_map. exact Hin.
Qed.

(** The entries of the join at a label: a pair of rows with the label, or a
    row of one side at a label the other side lacks. *)
Lemma pairs_at_cases (a b : DataFrame) (d : Z)
      (p : Z * option Row * option Row) :
  In p (pairs_at a b d) ->
  (exists x y, p = (d, Some x, Some y)
               /\ In x a /\ date x = d /\ In y b /\ date y = d)
  \/ (exists x, p = (d, Some x, None)
                /\ In x a /\ date x = d /\ ~ In d (map date b))
  \/ (exists y, p = (d, None, Some y)
                /\ In y b /\ date y = d /\ ~ In d (map date a)).
Proof.
  unfold pairs_at.
  destruct (rows_at d a) as [|x0 ra] eqn:Ea.
  - intros H. right. right. apply in_map_iff in H.
    destruct H as (y & <- & Hy). apply rows_at_In in Hy.
    exists y. split; [reflexivity|]. destruct Hy as [Hy Hd].
    repeat split; [exact Hy|exact Hd|]. apply rows_at_nil. exact Ea.
  - destruct (rows_at d b) as [|y0 rb] eqn:Eb.
    + intros H. right. left. apply in_map_iff in H.
      destruct H as (x & <- & Hx). rewrite <- Ea in Hx.
      apply rows_at_In in Hx. destruct Hx as [Hx Hd].
      exists x. repeat split; [exact Hx|exact Hd|].
      apply rows_at_nil. exact Eb.
    + intros H. left. apply in_map_iff in H.
      destruct H as ([x y] & <- & Hxy). apply in_prod_iff in Hxy.
      rewrite <- Ea, <- Eb, !rows_at_In in Hxy. simpl.
      exists x, y. tauto.
Qed.

Lemma pairs_at_left (a b : DataFrame) (x : Row) :
  In x a -> ~ In (date x) (map date b) ->
  In (date x, Some x, None) (pairs_at a b (date x)).
Proof.
  intros Hx Hb. unfold pairs_at.
  assert (Hin : In x (rows_at (date x) a)) by (apply rows_at_In; tauto).
  apply rows_at_nil in Hb. rewrite Hb.
  destruct (rows_at (date x) a) as [|x0 ra]; [contradiction|].
  apply in_map_iff. exists x. split; [reflexivity|exact Hin].
Qed.

Lemma pairs_at_right (a b : DataFrame) (y : Row) :
  In y b -> ~ In (date y) (map date a) ->
  In (date y, None, Some y) (pairs_at a b (date y)).
Proof.
  intros Hy Ha. unfold pairs_at.
  assert (Hin : In y (rows_at (date y) b)) by (apply rows_at_In; tauto).
  apply rows_at_nil in Ha. rewrite Ha.
  apply in_map_iff. exists y. split; [reflexivity|exact Hin].
Qed.

Lemma frame_add_one_sided (a b : DataFrame) (d : Z) :
  (In d (map date a) /\ ~ In d (map date b))
  \/ (~ In d (map date a) /\ In d (map date b)) ->
  frame_add_fill0 a b = Raise TypeError.
Proof.
  intros H. unfold frame_add_fill0, align.
  destruct (dates_eqb (map date a) (map date b)) eqn:E.
  - apply dates_eqb_eq in E. rewrite E in H. tauto.
  - destruct H as [[Ha Hb]|[Ha Hb]].
    + apply in_map_iff in Ha. destruct Ha as (x & <- & Hx).
      apply mapM_raises with (x := (date x, Some x, None)).
      * exact add_rows_raises_type_error.
      * apply in_flat_map. exists (date x). split.
        -- apply In_union_dates. left. apply in_map. exact Hx.
        -- apply pairs_at_left; assumption.
      * reflexivity.
    + apply in_map_iff in Hb. destruct Hb as (y & <- & Hy).
      apply mapM_raises with (x := (date y, None, Some y)).
      * exact add_rows_raises_type_error.
      * apply in_flat_map. exists (date y). split.
        -- apply In_union_dates. right. apply in_map. exact Hy.
        -- apply pairs_at_right; assumption.
      * reflexivity.
Qed.

(** Hence a block whose two resolved components do not cover the same
    dates appends nothing: it raises. *)
Lemma total_rows_one_sided (df : DataFrame) (a b name : string) (d : Z) :
  (In d (map date (rows_of a df)) /\ ~ In d (map date (rows_of b df)))
  \/ (~ In d (map date (rows_of a df)) /\ In d (map date (rows_of b df))) ->
  total_rows df a b name = Raise TypeError.
Proof.
  intros H. unfold total_rows.
  rewrite (frame_add_one_sided _ _ d H). reflexivity.
Qed.

(** ** When the composite build raises *)

Lemma mapM_raise_inv {A B : Type} (f : A -> result B) (l : list A) (e : exn) :
  mapM f l = Raise e -> exists x, In x l /\ f x = Raise e.
Proof.
  induction l as [|a l IH]; simpl; [discriminate|].
  destruct (f a) as [y|e'] eqn:Ea; simpl.
  - destruct (mapM f l) as [ys|e'']; simpl; [discriminate|].
    intros [= <-]. destruct (IH eq_refl) as (x & Hx & Hfx).
    exists x. split; [now right|exact Hfx].
  - intros [= <-]. exists a. split; [now left|exact Ea].
Qed.

Lemma mapM_ok_inv {A B : Type} (f : A -> result B) (l : list A) (ys : list B) :
  mapM f l = Ok ys -> Forall2 (fun x y => f x = Ok y) l ys.
Proof.
  revert ys. induction l as [|a l IH]; simpl; intros ys.
  - intros [= <-]. constructor.
  - destruct (f a) as [y|e] eqn:Ea; simpl; [|discriminate].
    destruct (mapM f l) as [ys'|e]; simpl; [|discriminate].
    intros [= <-]. constructor; [exact Ea|apply IH; reflexivity].
Qed.

Lemma mapM_total {A B : Type} (f : A -> result B) (l : list A) :
  (forall x, In x l -> exists y, f x = Ok y) -> exists ys, mapM f l = Ok ys.
Proof.
  induction l as [|a l IH]; simpl; intros H; [exists []; reflexivity|].
  destruct (H a (or_introl eq_refl)) as (y & ->). simpl.
  destruct IH as (ys & ->); [intros x Hx; apply H; now right|].
  simpl. exists (y :: ys). reflexivity.
Qed.

Lemma row_at_date (d : Z) (f : DataFrame) (r0 : Row) :
  row_at d f = Some r0 -> In r0 f /\ date r0 = d.
Proof.
  unfold row_at. intros H. apply find_some in H. destruct H as [Hin Hd].
  apply Z.eqb_eq in Hd. split; assumption.
Qed.

Lemma align_entries (a b : DataFrame) (p : Z * option Row * option Row) :
  In p (align a b) ->
  (exists ra rb, p = (date ra, Some ra, Some rb) /\ In (ra, rb) (combine a b)
                 /\ map date a = map date b)
  \/ (exists d x y, p = (d, Some x, Some y)
                    /\ In x a /\ date x = d /\ In y b /\ date y = d)
  \/ (exists d x, p = (d, Some x, None)
                  /\ In x a /\ date x = d /\ ~ In d (map date b))
  \/ (exists d y, p = (d, None, Some y)
                  /\ In y b /\ date y = d /\ ~ In d (map date a)).
Proof.
  unfold align. destruct (dates_eqb (map date a) (map date b)) eqn:E; intros H.
  - left. apply in_map_iff in H. destruct H as ([ra rb] & <- & Hin).
    exists ra, rb. split; [reflexivity|]. split; [exact Hin|].
    apply dates_eqb_eq. exact E.
  - right. apply in_flat_map in H. destruct H as (d & _ & Hp).
    destruct (pairs_at_cases a b d p Hp) as [H|[H|H]].
    + left. exists d. exact H.
    + right. left. exists d. exact H.
    + right. right. exists d. exact H.
Qed.

Lemma In_dec_date (d : Z) (l : list Z) : In d l \/ ~ In d l.
Proof. destruct (in_dec Z.eq_dec d l); [now left|now right]. Qed.

Lemma frame_add_raises_iff (a b : DataFrame) (e : exn) :
  frame_add_fill0 a b = Raise e <->
  e = TypeError /\ exists d, one_sided a b d.
Proof.
  split.
  - intros H. unfold frame_add_fill0 in H.
    apply mapM_raise_inv in H. destruct H as (p & Hp & Hraise).
    split; [exact (add_rows_raises_type_error p e Hraise)|].
    apply align_entries in Hp.
    destruct Hp as [(ra & rb & -> & _)
                   |[(d & x & y & -> & _)
                    |[(d & x & -> & Hx & Hd & Hb)
                     |(d & y & -> & Hy & Hd & Ha)]]];
      try discriminate Hraise; exists d; unfold one_sided.
    + left. split; [|exact Hb]. rewrite <- Hd. apply in_map. exact Hx.
    + right. split; [exact Ha|]. rewrite <- Hd. apply in_map. exact Hy.
  - intros [-> (d & Hd)]. exact (frame_add_one_sided a b d Hd).
Qed.

Lemma frame_add_total (a b : DataFrame) :
  (forall d, ~ one_sided a b d) -> exists total, frame_add_fill0 a b = Ok total.
Proof.
  intros H. destruct (frame_add_fill0 a b) as [total|e] eqn:E;
    [exists total; reflexivity|].
  apply frame_add_raises_iff in E. destruct E as [_ (d & Hd)].
  exfalso. exact (H d Hd).
Qed.

Lemma composite_rows_raises (km : dict) (a_lower b_lower name : string)
      (d : DataFrame) (e : exn) :
  composite_rows km a_lower b_lower name d = Raise e <->
  exists a b,
    dict_get a_lower km = Some a /\ dict_get b_lower km = Some b
    /\ frame_add_fill0 (rows_of a d) (rows_of b d) = Raise e.
Proof.
  unfold composite_rows, total_rows. split.
  - destruct (dict_get a_lower km) as [a|]; [|discriminate].
    destruct (dict_get b_lower km) as [b|]; [|discriminate].
    destruct (frame_add_fill0 (rows_of a d) (rows_of b d)) as [t|e'] eqn:E;
      simpl; [discriminate|].
    intros [= <-]. exists a, b. repeat split. exact E.
  - intros (a & b & -> & -> & ->). reflexivity.
Qed.

Lemma pair_mismatch_raises (df d : DataFrame) (a_lower b_lower name : string)
      (e : exn) :
  (forall k x, (k = a_lower \/ k = b_lower) ->
               dict_get k (kpi_map_of df) = Some x ->
               rows_of x d = rows_of x df) ->
  composite_rows (kpi_map_of df) a_lower b_lower name d = Raise e <->
  e = TypeError /\ pair_mismatch df a_lower b_lower.
Proof.
  intros Hrows. rewrite composite_rows_raises. unfold pair_mismatch. split.
  - intros (a & b & Ha & Hb & H).
    rewrite (Hrows a_lower a (or_introl eq_refl) Ha) in H.
    rewrite (Hrows b_lower b (or_intror eq_refl) Hb) in H.
    apply frame_add_raises_iff in H. destruct H as [-> (dd & Hdd)].
    split; [reflexivity|]. exists a, b, dd. repeat split; assumption.
  - intros [-> (a & b & dd & Ha & Hb & Hdd)]. exists a, b.
    split; [exact Ha|]. split; [exact Hb|].
    rewrite (Hrows a_lower a (or_introl eq_refl) Ha).
    rewrite (Hrows b_lower b (or_intror eq_refl) Hb).
    apply frame_add_raises_iff. split; [reflexivity|]. exists dd. exact Hdd.
Qed.

(** On a table with a name in every row the only exception is the
    [TypeError] of a block whose resolved components differ in their
    dates. *)
Lemma calculate_summary_kpis_loaded_raises (df : DataFrame) (e : exn) :
  calculate_summary_kpis (loaded df) = Raise e <->
  e = TypeError
  /\ (pair_mismatch df new_sales_lower used_sales_lower
      \/ pair_mismatch df new_gp_lower used_gp_lower).
Proof.
  assert (Hs : forall e',
             composite_rows (kpi_map_of df) new_sales_lower used_sales_lower
                            total_sales_name df = Raise e' <->
             e' = TypeError /\ pair_mismatch df new_sales_lower used_sales_lower).
  { intros e'. apply pair_mismatch_raises. reflexivity. }
  assert (Hg : forall sales e',
             Forall is_total sales ->
             composite_rows (kpi_map_of df) new_gp_lower used_gp_lower
                            total_gp_name (df ++ sales) = Raise e' <->
             e' = TypeError /\ pair_mismatch df new_gp_lower used_gp_lower).
  { intros sales e' Ht. apply pair_mismatch_raises.
    intros k x Hk Hx. apply (rows_of_totals df df sales k x); [|exact Hx|exact Ht].
    destruct Hk as [-> | ->]; simpl; tauto. }
  rewrite calculate_summary_kpis_loaded.
  rewrite add_total_rows.
  destruct (composite_rows (kpi_map_of df) new_sales_lower used_sales_lower
                           total_sales_name df) as [sales|e1] eqn:E1; simpl.
  - assert (Ht : Forall is_total sales).
    { apply composite_rows_shape in E1. eapply Forall_impl; [|exact E1].
      intros r (Hn & _). now left. }
    rewrite add_total_rows.
    destruct (composite_rows (kpi_map_of df) new_gp_lower used_gp_lower
                             total_gp_name (df ++ sales)) as [gp|e2] eqn:E2;
      simpl.
    + split; [discriminate|]. intros [-> [H|H]].
      * assert (Hc : Ok sales = Raise TypeError)
          by (apply Hs; split; [reflexivity|exact H]).
        discriminate Hc.
      * pose proof (proj2 (Hg sales TypeError Ht) (conj eq_refl H)) as Hc.
        rewrite E2 in Hc. discriminate Hc.
    + pose proof (proj1 (Hg sales e2 Ht) E2) as [-> H]. split.
      * intros [= <-]. split; [reflexivity|now right].
      * intros [-> _]. reflexivity.
  - destruct (proj1 (Hs e1) eq_refl) as [-> H]. split.
    + intros [= <-]. split; [reflexivity|now left].
    + intros [-> _]. reflexivity.
Qed.

Lemma calculate_summary_kpis_exn (df : LoadedFrame) (e : exn) :
  calculate_summary_kpis df = Raise e -> e = AttributeError \/ e = TypeError.
Proof.
  intros H. destruct (missing_name_dec df) as [Hm|Hn].
  - rewrite (calculate_summary_kpis_missing_name df Hm) in H.
    injection H as <-. now left.
  - destruct (all_named_loaded df Hn) as (df0 & ->).
    apply calculate_summary_kpis_loaded_raises in H. right. apply H.
Qed.

(** X1.  [calculate_summary_kpis] raises in exactly two cases.  It raises
    [AttributeError] when some row of the loaded table has no name.  On a
    table with a name in every row it raises [TypeError] when, for one of
    the two composites, both components resolve and some date has a row of
    one component only.  In every other case it returns a table. *)
Theorem calculate_summary_kpis_raises_iff :
  forall (df : LoadedFrame) (e : exn),
    calculate_summary_kpis df = Raise e <->
    (e = AttributeError /\ exists r, In r df /\ l_english_name r = None)
    \/ (e = TypeError
        /\ exists df0,
             df = loaded df0
             /\ (pair_mismatch df0 new_sales_lower used_sales_lower
                 \/ pair_mismatch df0 new_gp_lower used_gp_lower)).
Proof.
  intros df e. split.
  - intros H. destruct (missing_name_dec df) as [Hm|Hn].
    + left. rewrite (calculate_summary_kpis_missing_name df Hm) in H.
      injection H as <-. split; [reflexivity|exact Hm].
    + right. destruct (all_named_loaded df Hn) as (df0 & ->).
      apply calculate_summary_kpis_loaded_raises in H.
      destruct H as [-> H]. split; [reflexivity|].
      exists df0. split; [reflexivity|exact H].
  - intros [[-> Hm]|[-> (df0 & -> & H)]].
    + apply calculate_summary_kpis_missing_name. exact Hm.
    + apply calculate_summary_kpis_loaded_raises. split; [reflexivity|exact H].
Qed.

Lemma calculate_summary_kpis_raises_iff_witness :
  calculate_summary_kpis (loaded one_sided_example) = Raise TypeError.
Proof.
  apply (proj2 (calculate_summary_kpis_raises_iff
                  (loaded one_sided_example) TypeError)).
  right. split; [reflexivity|]. exists one_sided_example.
  split; [reflexivity|]. right.
  exists "Gross Profit - New Vehicles"%string,
         "Gross Profit - Used Vehicles"%string, 2%Z.
  split; [reflexivity|]. split; [reflexivity|].
  right. simpl. split; [intros [H|[]]; discriminate H|right; left; reflexivity].
Defined.

(** ** The composite rows of a successful build *)

Lemma insert_date_lower (x d : Z) (l : list Z) :
  (x < d)%Z -> Forall (Z.lt x) l -> Forall (Z.lt x) (insert_date d l).
Proof.
  intros Hx Hl. apply Forall_forall. intros y Hy.
  apply In_insert_date in Hy. destruct Hy as [->|Hy]; [exact Hx|].
  rewrite Forall_forall in Hl. exact (Hl y Hy).
Qed.

Lemma insert_date_sorted (d : Z) (l : list Z) :
  StronglySorted Z.lt l -> StronglySorted Z.lt (insert_date d l).
Proof.
  induction 1 as [|x l Hs IH Hall]; simpl.
  - constructor; constructor.
  - destruct (Z.ltb_spec d x) as [Hlt|Hge].
    + constructor; [constructor; assumption|].
      constructor; [exact Hlt|].
      eapply Forall_impl; [|exact Hall]. intros y Hy. lia.
    + destruct (Z.eqb_spec d x) as [->|Hne]; [constructor; assumption|].
      constructor; [exact IH|]. apply insert_date_lower; [lia|exact Hall].
Qed.

Lemma union_dates_sorted (a b : list Z) :
  StronglySorted Z.lt (union_dates a b).
Proof.
  unfold union_dates. induction (a ++ b) as [|x l IH]; simpl;
    [constructor|apply insert_date_sorted; exact IH].
Qed.

Lemma sorted_lt_NoDup (l : list Z) : StronglySorted Z.lt l -> NoDup l.
Proof.
  induction 1 as [|x l Hs IH Hall]; constructor; [|exact IH].
  intros Hin. rewrite Forall_forall in Hall. specialize (Hall x Hin). lia.
Qed.

Lemma row_at_unique (f : DataFrame) (r0 : Row) :
  NoDup (map date f) -> In r0 f -> row_at (date r0) f = Some r0.
Proof.
  unfold row_at. induction f as [|x f IH]; simpl; intros Hnd Hin;
    [contradiction|].
  inversion Hnd as [|y l Hnotin Hnd']; subst.
  destruct Hin as [->|Hin]; [rewrite Z.eqb_refl; reflexivity|].
  destruct (Z.eqb_spec (date x) (date r0)) as [E|E]; [|exact (IH Hnd' Hin)].
  exfalso. apply Hnotin. rewrite E. apply in_map. exact Hin.
Qed.

Lemma combine_same_dates (a b : DataFrame) (ra rb : Row) :
  map date a = map date b -> In (ra, rb) (combine a b) ->
  date ra = date rb /\ In ra a /\ In rb b.
Proof.
  revert b. induction a as [|x a IH]; intros [|y b] H Hin; simpl in *;
    try contradiction.
  injection H as Hd Ht. destruct Hin as [[= <- <-]|Hin].
  - repeat split; [exact Hd|now left|now left].
  - destruct (IH b Ht Hin) as (H1 & H2 & H3).
    repeat split; [exact H1|now right|now right].
Qed.

Lemma combine_dates (a b : DataFrame) :
  map date a = map date b ->
  map (fun p => date (fst p)) (combine a b) = map date a.
Proof.
  revert b. induction a as [|x a IH]; intros [|y b] E; simpl in *;
    try discriminate; [reflexivity|].
  injection E as _ Et. rewrite (IH b Et). reflexivity.
Qed.

Lemma rows_at_short (d : Z) (f : DataFrame) :
  NoDup (map date f) -> rows_at d f = [] \/ exists x, rows_at d f = [x].
Proof.
  induction f as [|x f IH]; simpl; intros Hnd; [now left|].
  inversion Hnd as [|y l Hnotin Hnd']; subst.
  destruct (Z.eqb_spec (date x) d) as [E|E]; [|exact (IH Hnd')].
  right. exists x. f_equal. apply rows_at_nil. rewrite <- E. exact Hnotin.
Qed.

(** With unique dates on both sides the join has one entry per label. *)
Lemma pairs_at_unique (a b : DataFrame) (d : Z) :
  NoDup (map date a) -> NoDup (map date b) ->
  In d (map date a) \/ In d (map date b) ->
  map (fun p => fst (fst p)) (pairs_at a b d) = [d].
Proof.
  intros Ha Hb Hd. unfold pairs_at.
  destruct (rows_at_short d a Ha) as [Ea|(x & Ea)];
    destruct (rows_at_short d b Hb) as [Eb|(y & Eb)]; rewrite Ea, Eb;
    try reflexivity.
  exfalso. apply rows_at_nil in Ea, Eb. tauto.
Qed.

Lemma align_dates (a b : DataFrame) :
  NoDup (map date a) -> NoDup (map date b) ->
  map (fun p => fst (fst p)) (align a b) =
  if dates_eqb (map date a) (map date b) then map date a
  else union_dates (map date a) (map date b).
Proof.
  intros Ha Hb. unfold align.
  destruct (dates_eqb (map date a) (map date b)) eqn:E.
  - apply dates_eqb_eq in E. rewrite map_map. simpl.
    apply combine_dates. exact E.
  - assert (H : forall l,
               (forall d, In d l -> In d (map date a) \/ In d (map date b)) ->
               map (fun p => fst (fst p)) (flat_map (pairs_at a b) l) = l).
    { induction l as [|d l IH]; simpl; intros Hl; [reflexivity|].
      rewrite map_app, (pairs_at_unique a b d Ha Hb), IH.
      - reflexivity.
      - intros d' Hd'. apply Hl. now right.
      - apply Hl. now left. }
    apply H. intros d Hd. apply In_union_dates. exact Hd.
Qed.

Lemma align_covers (a b : DataFrame) (d : Z) :
  In d (map date a) -> In d (map (fun p => fst (fst p)) (align a b)).
Proof.
  intros Hd. unfold align.
  destruct (dates_eqb (map date a) (map date b)) eqn:E.
  - apply dates_eqb_eq in E. rewrite map_map. simpl.
    rewrite (combine_dates a b E). exact Hd.
  - apply in_map_iff in Hd. destruct Hd as (x & <- & Hx).
    destruct (In_dec_date (date x) (map date b)) as [Hb|Hb].
    + apply in_map_iff in Hb. destruct Hb as (y & Hy & Hyb).
      apply in_map_iff. exists (date x, Some x, Some y). split; [reflexivity|].
      apply in_flat_map. exists (date x). split.
      * apply In_union_dates. left. apply in_map. exact Hx.
      * unfold pairs_at.
        assert (Hxa : In x (rows_at (date x) a)) by (apply rows_at_In; tauto).
        assert (Hyb' : In y (rows_at (date x) b)) by (apply rows_at_In; tauto).
        destruct (rows_at (date x) a) as [|x0 ra] eqn:Ea; [contradiction|].
        destruct (rows_at (date x) b) as [|y0 rb] eqn:Eb; [contradiction|].
        apply in_map_iff. exists (x, y). split; [reflexivity|].
        apply in_prod; assumption.
    + apply in_map_iff. exists (date x, Some x, None). split; [reflexivity|].
      apply in_flat_map. exists (date x). split.
      * apply In_union_dates. left. apply in_map. exact Hx.
      * apply pairs_at_left; assumption.
Qed.

Lemma add_rows_date (p : Z * option Row * option Row) (s : SumRow) :
  add_rows p = Ok s -> s_date s = fst (fst p).
Proof.
  destruct p as [[d [ra|]] [rb|]]; simpl; intros H;
    try discriminate H; injection H as <-; reflexivity.
Qed.

Lemma frame_add_dates (a b : DataFrame) (total : list SumRow) :
  frame_add_fill0 a b = Ok total ->
  map s_date total = map (fun p => fst (fst p)) (align a b).
Proof.
  unfold frame_add_fill0. intros H. apply mapM_ok_inv in H.
  induction H as [|p s l t Hps _ IH]; simpl; [reflexivity|].
  rewrite IH, (add_rows_date p s Hps). reflexivity.
Qed.

Lemma Forall2_In_r {A B : Type} (P : A -> B -> Prop) (l : list A)
      (t : list B) (y : B) :
  Forall2 P l t -> In y t -> exists x, In x l /\ P x y.
Proof.
  induction 1 as [|x0 y0 l t H0 _ IH]; simpl; [contradiction|].
  intros [<-|Hin].
  - exists x0. split; [now left|exact H0].
  - destruct (IH Hin) as (x & Hx & HP). exists x. split; [now right|exact HP].
Qed.

Lemma total_rows_composite (df : DataFrame) (a b name : string)
      (rows : list Row) :
  NoDup (map date (rows_of a df)) -> NoDup (map date (rows_of b df)) ->
  total_rows df a b name = Ok rows ->
  composite_of (rows_of a df) (rows_of b df) name rows.
Proof.
  set (A := rows_of a df). set (B := rows_of b df).
  intros HA HB H. unfold total_rows in H. fold A B in H.
  destruct (frame_add_fill0 A B) as [total|e] eqn:E; simpl in H;
    [|discriminate H].
  injection H as <-.
  assert (Hno : forall d, ~ one_sided A B d).
  { intros d Hd.
    assert (Hr : frame_add_fill0 A B = Raise TypeError)
      by (apply frame_add_raises_iff; split; [reflexivity|exists d; exact Hd]).
    congruence. }
  assert (Hsame : forall d, In d (map date A) <-> In d (map date B)).
  { intros d. specialize (Hno d). unfold one_sided in Hno.
    destruct (In_dec_date d (map date A)), (In_dec_date d (map date B)); tauto. }
  assert (Hdates : map date (map (total_row name) total)
                   = map (fun p => fst (fst p)) (align A B)).
  { rewrite map_map. simpl. fold (map s_date total).
    apply frame_add_dates. exact E. }
  assert (HinA : forall d, In d (map date (map (total_row name) total))
                           <-> In d (map date A)).
  { intros d. rewrite Hdates, (align_dates A B HA HB).
    destruct (dates_eqb (map date A) (map date B)); [tauto|].
    rewrite In_union_dates, <- Hsame. tauto. }
  split; [exact HinA|]. split; [intros d; rewrite HinA; apply Hsame|].
  split.
  - rewrite Hdates, (align_dates A B HA HB).
    destruct (dates_eqb (map date A) (map date B)); [exact HA|].
    apply sorted_lt_NoDup, union_dates_sorted.
  - intros r Hr. apply in_map_iff in Hr. destruct Hr as (s & <- & Hs).
    unfold frame_add_fill0 in E. apply mapM_ok_inv in E.
    destruct (Forall2_In_r _ _ _ s E Hs) as (p & Hp & Hadd).
    apply align_entries in Hp.
    destruct Hp as [(ra & rb & -> & Hin & Heq)
                   |[(d & x & y & -> & Hx & Hdx & Hy & Hdy)
                    |[(d & x & -> & _)|(d & y & -> & _)]]];
      try discriminate Hadd.
    + destruct (combine_same_dates A B ra rb Heq Hin) as (Hd & Hra & Hrb).
      simpl in Hadd. injection Hadd as <-. simpl.
      exists ra, rb. rewrite (row_at_unique A ra HA Hra).
      rewrite Hd, (row_at_unique B rb HB Hrb). repeat split.
    + simpl in Hadd. injection Hadd as <-. simpl. exists x, y.
      rewrite <- Hdx at 1. rewrite (row_at_unique A x HA Hx).
      rewrite <- Hdy. rewrite (row_at_unique B y HB Hy). repeat split.
Qed.

Lemma composite_rows_block (df d : DataFrame) (a_lower b_lower name : string)
      (rows : list Row) :
  dates_unique df ->
  (forall k x, (k = a_lower \/ k = b_lower) ->
               dict_get k (kpi_map_of df) = Some x ->
               rows_of x d = rows_of x df) ->
  composite_rows (kpi_map_of df) a_lower b_lower name d = Ok rows ->
  block_rows df a_lower b_lower name rows.
Proof.
  intros Hu Hrows. unfold composite_rows, block_rows.
  destruct (dict_get a_lower (kpi_map_of df)) as [a|] eqn:Ea;
    [|intros [= <-]; reflexivity].
  destruct (dict_get b_lower (kpi_map_of df)) as [b|] eqn:Eb;
    [|intros [= <-]; reflexivity].
  intros H. apply total_rows_composite; [apply Hu|apply Hu|].
  unfold total_rows in *.
  rewrite (Hrows a_lower a (or_introl eq_refl) Ea) in H.
  rewrite (Hrows b_lower b (or_intror eq_refl) Eb) in H. exact H.
Qed.

(** X2.  On a table in which a date occurs once within each KPI, a returned
    table is the input followed by the sales composite and then the gross
    profit composite.  A composite is empty when one of its components does
    not resolve; otherwise it has exactly one row per date, its dates are
    those of either component, and the actual and predicted value of each
    row are the sums of the two component values at that date, a NaN on one
    side counting as 0 and NaN on both sides giving NaN. *)
Theorem calculate_summary_kpis_composites :
  forall (df df' : DataFrame),
    dates_unique df ->
    calculate_summary_kpis (loaded df) = Ok df' ->
    exists sales gp,
      df' = df ++ sales ++ gp
      /\ block_rows df new_sales_lower used_sales_lower total_sales_name sales
      /\ block_rows df new_gp_lower used_gp_lower total_gp_name gp.
Proof.
  intros df df' Hu H. apply calculate_summary_kpis_rows in H.
  destruct H as (sales & gp & Hs & Hg & ->). exists sales, gp.
  split; [reflexivity|]. split.
  - apply (composite_rows_block df df); [exact Hu|reflexivity|exact Hs].
  - assert (Ht : Forall is_total sales).
    { apply composite_rows_shape in Hs. eapply Forall_impl; [|exact Hs].
      intros r (Hn & _). now left. }
    apply (composite_rows_block df (df ++ sales)); [exact Hu| |exact Hg].
    intros k x Hk Hx.
    apply (rows_of_totals df df sales k x); [|exact Hx|exact Ht].
    destruct Hk as [-> | ->]; simpl; tauto.
Qed.

Lemma banded_sales_dates_unique : dates_unique banded_sales.
Proof.
  intros kpi. cbv [rows_of banded_sales filter english_name].
  destruct (String.eqb_spec "New Vehicles - Retail" kpi) as [E1|E1];
    destruct (String.eqb_spec "Used Vehicles - Retail" kpi) as [E2|E2];
    simpl.
  - exfalso. rewrite <- E2 in E1. discriminate E1.
  - apply sorted_lt_NoDup. repeat (constructor; try lia).
  - apply sorted_lt_NoDup. repeat (constructor; try lia).
  - constructor.
Qed.

Lemma calculate_summary_kpis_composites_witness :
  exists sales gp,
    banded_sales_total = banded_sales ++ sales ++ gp
    /\ block_rows banded_sales new_sales_lower used_sales_lower
                  total_sales_name sales
    /\ block_rows banded_sales new_gp_lower used_gp_lower total_gp_name gp.
Proof.
  apply (calculate_summary_kpis_composites banded_sales banded_sales_total).
  - exact banded_sales_dates_unique.
  - reflexivity.
Defined.

(** X3.  For components in each of which a date occurs once, the composite
    rows of a block come in the order of the first component's rows when
    both components list the same dates in the same order, and in strictly
    ascending date order otherwise. *)
Theorem total_rows_order :
  forall (df : DataFrame) (a b name : string) (rows : list Row),
    NoDup (map date (rows_of a df)) ->
    NoDup (map date (rows_of b df)) ->
    total_rows df a b name = Ok rows ->
    (map date (rows_of a df) = map date (rows_of b df) ->
     map date rows = map date (rows_of a df))
    /\ (map date (rows_of a df) <> map date (rows_of b df) ->
        StronglySorted Z.lt (map date rows)).
Proof.
  intros df a b name rows HA HB H. unfold total_rows in H.
  destruct (frame_add_fill0 (rows_of a df) (rows_of b df)) as [total|e] eqn:E;
    simpl in H; [|discriminate H].
  injection H as <-.
  assert (Hd : map date (map (total_row name) total)
               = map (fun p => fst (fst p))
                     (align (rows_of a df) (rows_of b df))).
  { rewrite map_map. simpl. fold (map s_date total).
    apply frame_add_dates. exact E. }
  rewrite Hd, (align_dates _ _ HA HB).
  destruct (dates_eqb (map date (rows_of a df)) (map date (rows_of b df)))
    eqn:Eq.
  - split; [reflexivity|]. intros Hne. apply dates_eqb_eq in Eq. contradiction.
  - split; [|intros _; apply union_dates_sorted].
    intros Heq. rewrite Heq in Eq.
    assert (Hrefl : forall l, dates_eqb l l = true).
    { induction l as [|x l IH]; simpl; [reflexivity|].
      rewrite Z.eqb_refl. exact IH. }
    rewrite Hrefl in Eq. discriminate Eq.
Qed.

(** A repeated date: two rows of the first component at date 1 and one of
    the second give two composite rows at date 1. *)
Lemma composite_repeated_date :
  calculate_summary_kpis (loaded repeated_date_example)
  = Ok (repeated_date_example ++
        [ mkRow 1 total_sales_name (Some (10 + 5)) (Some (11 + 6)) None None;
          mkRow 1 total_sales_name (Some (20 + 5)) (Some (21 + 6)) None None ]).
Proof. reflexivity. Qed.

Lemma total_rows_order_witness :
  map date [ mkRow 1 total_sales_name (Some (10 + 5)) (Some (11 + 6)) None None;
             mkRow 2 total_sales_name None (Some (12 + 7)) None None ]
  = map date (rows_of "New Vehicles - Retail" banded_sales).
Proof.
  apply (proj1 (total_rows_order banded_sales "New Vehicles - Retail"
                                "Used Vehicles - Retail" total_sales_name
                                _
                                (banded_sales_dates_unique _)
                                (banded_sales_dates_unique _)
                                eq_refl)).
  reflexivity.
Defined.

(** ** Normalised keys and the catalogue *)

Lemma ascii_lower_idem (c : ascii) : ascii_lower (ascii_lower c) = ascii_lower c.
Proof. destruct c as [[] [] [] [] [] [] [] []]; reflexivity. Qed.

Lemma is_space_lower (c : ascii) : is_space (ascii_lower c) = is_space c.
Proof. destruct c as [[] [] [] [] [] [] [] []]; reflexivity. Qed.

Lemma lower_idem (s : string) : lower (lower s) = lower s.
Proof.
  induction s as [|c s IH]; simpl; [reflexivity|].
  rewrite ascii_lower_idem, IH. reflexivity.
Qed.

Lemma lower_lstrip (s : string) : lower (lstrip s) = lstrip (lower s).
Proof.
  induction s as [|c s IH]; simpl; [reflexivity|].
  rewrite is_space_lower. destruct (is_space c); [exact IH|reflexivity].
Qed.

Lemma lower_rstrip (s : string) : lower (rstrip s) = rstrip (lower s).
Proof.
  induction s as [|c s IH]; simpl; [reflexivity|].
  rewrite <- IH, is_space_lower.
  destruct (rstrip s) as [|c' t]; simpl; [destruct (is_space c)|]; reflexivity.
Qed.

Lemma lower_strip (s : string) : lower (strip s) = strip (lower s).
Proof. unfold strip. rewrite lower_rstrip, lower_lstrip. reflexivity. Qed.

Lemma rstrip_idem (s : string) : rstrip (rstrip s) = rstrip s.
Proof.
  induction s as [|c s IH]; simpl; [reflexivity|].
  destruct (rstrip s) as [|c' t] eqn:E.
  - destruct (is_space c) eqn:Ec; simpl; [reflexivity|].
    rewrite Ec. reflexivity.
  - change (rstrip (String c (String c' t))) with
      (match rstrip (String c' t) with
       | EmptyString => if is_space c then EmptyString else String c EmptyString
       | String a u => String c (String a u)
       end).
    rewrite IH. reflexivity.
Qed.

Lemma lstrip_no_leading_space (s : string) : no_leading_space (lstrip s).
Proof.
  induction s as [|c s IH]; simpl; [exact I|].
  destruct (is_space c) eqn:E; [exact IH|exact E].
Qed.

Lemma lstrip_fixed (s : string) : no_leading_space s -> lstrip s = s.
Proof. destruct s as [|c s]; simpl; [reflexivity|]. intros ->. reflexivity. Qed.

Lemma rstrip_no_leading_space (s : string) :
  no_leading_space s -> no_leading_space (rstrip s).
Proof.
  destruct s as [|c s]; simpl; [intros H; exact H|]. intros E.
  destruct (rstrip s); [rewrite E|]; exact E.
Qed.

Lemma strip_idem (s : string) : strip (strip s) = strip s.
Proof.
  unfold strip.
  rewrite (lstrip_fixed (rstrip (lstrip s))), rstrip_idem; [reflexivity|].
  apply rstrip_no_leading_space, lstrip_no_leading_space.
Qed.

(** X4.  The catalogue key of a name is a normal form: normalising twice
    changes nothing, and names that differ only in the case of ASCII
    letters or in surrounding whitespace have the same key. *)
Theorem normalize_idempotent :
  forall (s : string),
    normalize (normalize s) = normalize s
    /\ normalize (lower s) = normalize s
    /\ normalize (strip s) = normalize s.
Proof.
  intros s. unfold normalize. repeat split.
  - rewrite lower_strip, lower_idem. apply strip_idem.
  - rewrite lower_idem. reflexivity.
  - rewrite lower_strip. apply strip_idem.
Qed.

Lemma kpi_map_none_unresolved (df : DataFrame) (k : string) :
  dict_get k (kpi_map_of df) = None -> unresolved df k.
Proof.
  unfold kpi_map_of. rewrite dict_get_kpi_map. intros H r0 Hr0 Hk.
  assert (Hin : In (english_name r0) (rev (unique (map english_name df)))).
  { apply -> in_rev. apply In_unique. apply in_map. exact Hr0. }
  pose proof (find_none _ _ H _ Hin) as Hf. unfold has_key in Hf.
  rewrite Hk, String.eqb_refl in Hf. discriminate Hf.
Qed.

(** X5.  Resolution of a key in the catalogue of a table.  The key is
    absent exactly when no KPI name of the table normalises to it; a name
    found normalises to the key and is the name of a row, in the table's own
    spelling; and a name of the table is found under its key whenever no
    other spelling in the table has that key. *)
Theorem kpi_map_resolution :
  forall (df : DataFrame) (k : string),
    (dict_get k (kpi_map_of df) = None <-> unresolved df k)
    /\ (forall x, dict_get k (kpi_map_of df) = Some x ->
                  normalize x = k /\ exists r, In r df /\ english_name r = x)
    /\ (forall r, In r df -> normalize (english_name r) = k ->
          (forall r', In r' df -> normalize (english_name r') = k ->
                      english_name r' = english_name r) ->
          dict_get k (kpi_map_of df) = Some (english_name r)).
Proof.
  intros df k.
  assert (Hnone : dict_get k (kpi_map_of df) = None -> unresolved df k)
    by apply kpi_map_none_unresolved.
  split; [split; [exact Hnone|apply kpi_map_unresolved]|].
  split; [apply kpi_map_resolved|].
  intros r0 Hr0 Hk Hsingle.
  destruct (dict_get k (kpi_map_of df)) as [x|] eqn:E.
  - apply kpi_map_resolved in E. destruct E as (Hx & r1 & Hr1 & <-).
    rewrite (Hsingle r1 Hr1 Hx). reflexivity.
  - exfalso. exact (Hnone eq_refl r0 Hr0 Hk).
Qed.

Lemma kpi_map_resolution_witness :
  dict_get "used vehicles - retail" (kpi_map_of banded_sales)
  = Some "Used Vehicles - Retail"%string.
Proof.
  apply (proj2 (proj2 (kpi_map_resolution banded_sales "used vehicles - retail"))
               (mkRow 1 "Used Vehicles - Retail" (Some 5) (Some 6)
                      (Some 4) (Some 7))).
  - simpl. right. right. left. reflexivity.
  - reflexivity.
  - intros r' [E|[E|[E|[E|[]]]]] Hk; subst r'; try reflexivity;
      vm_compute in Hk; discriminate Hk.
Defined.

Lemma filter_all {A : Type} (p : A -> bool) (l : list A) :
  (forall x, In x l -> p x = true) -> filter p l = l.
Proof.
  induction l as [|a l IH]; simpl; intros H; [reflexivity|].
  rewrite (H a (or_introl eq_refl)), IH; [reflexivity|].
  intros x Hx. apply H. now right.
Qed.

Lemma filter_unique (p : string -> bool) (l : list string) :
  filter p (unique l) = unique (filter p l).
Proof.
  induction l as [|x l IH]; simpl; [reflexivity|].
  rewrite filter_swap, IH. destruct (p x) eqn:Ep; simpl; [reflexivity|].
  apply filter_all. intros y Hy.
  apply (proj1 (In_unique y (filter p l))) in Hy. apply filter_In in Hy.
  destruct Hy as [_ Hpy].
  destruct (String.eqb_spec y x) as [->|Hne]; [congruence|reflexivity].
Qed.

Lemma unique_two (n1 n2 : string) (m : list string) :
  n1 <> n2 -> In n2 m -> (forall x, In x m -> x = n1 \/ x = n2) ->
  unique (n1 :: m) = [n1; n2].
Proof.
  intros Hne Hin Hall. simpl. f_equal. rewrite filter_unique.
  assert (Hm : forall x, In x (filter (fun y => negb (String.eqb y n1)) m)
                         -> x = n2).
  { intros x Hx. apply filter_In in Hx. destruct Hx as [Hx Hb].
    destruct (Hall x Hx) as [-> | ->]; [|reflexivity].
    rewrite String.eqb_refl in Hb. discriminate Hb. }
  assert (Hin2 : In n2 (filter (fun y => negb (String.eqb y n1)) m)).
  { apply filter_In. split; [exact Hin|].
    destruct (String.eqb_spec n2 n1) as [E|E]; [congruence|reflexivity]. }
  destruct (filter (fun y => negb (String.eqb y n1)) m) as [|y t];
    [contradiction|].
  rewrite (Hm y (or_introl eq_refl)). simpl. f_equal.
  apply filter_none. intros x Hx. apply (proj1 (In_unique x t)) in Hx.
  rewrite (Hm x (or_intror Hx)), String.eqb_refl. reflexivity.
Qed.

(** X6.  When two spellings normalise to the same key, the one whose first
    row comes later in the table is the one the catalogue returns: for a
    table whose rows with that key start with a row named [n1], contain a
    row named [n2] and are otherwise named [n1] or [n2], the lookup of the
    key gives [n2]. *)
Theorem kpi_map_last_spelling_wins :
  forall (l1 l2 : DataFrame) (r1 : Row) (n1 n2 k : string),
    n1 <> n2 ->
    normalize n1 = k -> normalize n2 = k ->
    unresolved l1 k ->
    english_name r1 = n1 ->
    (exists r2, In r2 l2 /\ english_name r2 = n2) ->
    (forall r, In r l2 -> normalize (english_name r) = k ->
               english_name r = n1 \/ english_name r = n2) ->
    dict_get k (kpi_map_of (l1 ++ r1 :: l2)) = Some n2.
Proof.
  intros l1 l2 r1 n1 n2 k Hne Hk1 Hk2 Hl1 Hr1 (r2 & Hr2 & Hn2) Hl2.
  unfold kpi_map_of.
  rewrite dict_get_kpi_map, find_hd_filter, filter_rev_comm, filter_unique.
  rewrite map_app, filter_app. simpl.
  rewrite (filter_none (has_key k) (map english_name l1)).
  2:{ intros n Hn. apply in_map_iff in Hn. destruct Hn as (r & <- & Hr).
      unfold has_key. apply String.eqb_neq. exact (Hl1 r Hr). }
  simpl. rewrite Hr1. unfold has_key at 1. rewrite Hk1, String.eqb_refl.
  rewrite (unique_two n1 n2); [reflexivity|exact Hne| |].
  - apply filter_In. split.
    + apply in_map_iff. exists r2. split; [exact Hn2|exact Hr2].
    + unfold has_key. rewrite Hk2. apply String.eqb_refl.
  - intros x Hx. apply filter_In in Hx. destruct Hx as [Hx Hkx].
    apply in_map_iff in Hx. destruct Hx as (r & <- & Hr).
    unfold has_key in Hkx. apply String.eqb_eq in Hkx. exact (Hl2 r Hr Hkx).
Qed.

Lemma kpi_map_last_spelling_wins_witness :
  dict_get "total sales"
           (kpi_map_of
              ([] ++ mkRow 1 "Total Sales" (Some 1) None None None
                  :: [mkRow 1 "TOTAL SALES " (Some 2) None None None;
                      mkRow 2 "Total Sales" None (Some 3) None None]))
  = Some "TOTAL SALES "%string.
Proof.
  apply (kpi_map_last_spelling_wins
           [] _ _ "Total Sales" "TOTAL SALES " "total sales").
  - discriminate.
  - reflexivity.
  - reflexivity.
  - intros r [].
  - reflexivity.
  - eexists. split; [left; reflexivity|reflexivity].
  - intros r [E|[E|[]]] _; subst r; [right|left]; reflexivity.
Defined.

(** ** Outcomes of the scenario planner *)

Lemma render_scenario_planner_eval
      (forecast_df : DataFrame) (cleaned_df : HistTable)
      (driver_kpi impacted_kpi : string)
      (selected_month : Z) (change_percentage : R) :
  render_scenario_planner forecast_df cleaned_df driver_kpi impacted_kpi
                          selected_month change_percentage =
  match future_dates forecast_df driver_kpi with
  | [] => Ok NoFutureData
  | _ :: _ =>
      match kpi_row_at forecast_df driver_kpi selected_month with
      | None => Raise IndexError
      | Some rd =>
          match kpi_row_at forecast_df impacted_kpi selected_month with
          | None => Raise IndexError
          | Some ri =>
              Ok (Planned
                    (planned_result
                       (predicted_value rd) (predicted_value ri)
                       (scenario_correlation cleaned_df driver_kpi impacted_kpi)
                       change_percentage))
          end
      end
  end.
Proof.
  unfold render_scenario_planner.
  destruct (future_dates forecast_df driver_kpi) as [|d0 l0]; [reflexivity|].
  unfold rows_of. rewrite filter_filter, !iloc0_filter.
  fold (kpi_row_at forecast_df driver_kpi selected_month).
  fold (kpi_row_at forecast_df impacted_kpi selected_month).
  destruct (kpi_row_at forecast_df driver_kpi selected_month) as [rd|];
    [|reflexivity].
  simpl.
  destruct (kpi_row_at forecast_df impacted_kpi selected_month) as [ri|];
    reflexivity.
Qed.

Lemma future_date_has_row (df : DataFrame) (kpi : string) (m : Z) :
  In m (future_dates df kpi) ->
  exists rd, kpi_row_at df kpi m = Some rd.
Proof.
  unfold future_dates, rows_of. rewrite filter_filter. intros H.
  apply in_map_iff in H. destruct H as (r0 & Hd & Hin).
  apply filter_In in Hin. destruct Hin as [Hin Hp].
  apply andb_prop in Hp. destruct Hp as [Hn _].
  unfold kpi_row_at.
  destruct (find (fun r => String.eqb (english_name r) kpi
                           && (date r =? m)%Z) df) as [rd|] eqn:E;
    [exists rd; reflexivity|exfalso].
  pose proof (find_none _ _ E r0 Hin) as Hf. simpl in Hf.
  rewrite Hn, Hd, Z.eqb_refl in Hf. discriminate Hf.
Qed.

(** X7.  The only exception the planner raises is [IndexError].  For a
    month taken from the driver's future dates, as the select box offers
    them, the driver's row is always found: the planner raises exactly when
    the impacted KPI has no row at that month, and otherwise returns a
    result built from the first row of that KPI at the month. *)
Theorem scenario_planner_outcomes :
  forall (forecast_df : DataFrame) (cleaned_df : HistTable)
         (driver_kpi impacted_kpi : string)
         (selected_month : Z) (change_percentage : R),
    (forall e,
        render_scenario_planner forecast_df cleaned_df driver_kpi impacted_kpi
                                selected_month change_percentage = Raise e ->
        e = IndexError)
    /\ (In selected_month (future_dates forecast_df driver_kpi) ->
        (kpi_row_at forecast_df impacted_kpi selected_month = None ->
         render_scenario_planner forecast_df cleaned_df driver_kpi impacted_kpi
                                 selected_month change_percentage
         = Raise IndexError)
        /\ (forall ri,
              kpi_row_at forecast_df impacted_kpi selected_month = Some ri ->
              exists res,
                render_scenario_planner forecast_df cleaned_df driver_kpi
                                        impacted_kpi selected_month
                                        change_percentage
                = Ok (Planned res)
                /\ original_impacted_pred res = predicted_value ri)).
Proof.
  intros df h drv imp m p. rewrite render_scenario_planner_eval. split.
  - intros e.
    destruct (future_dates df drv); [discriminate|].
    destruct (kpi_row_at df drv m); [|intros [= <-]; reflexivity].
    destruct (kpi_row_at df imp m); [discriminate|intros [= <-]; reflexivity].
  - intros Hin. destruct (future_date_has_row df drv m Hin) as (rd & ->).
    destruct (future_dates df drv) as [|d0 l0]; [contradiction|]. split.
    + intros ->. reflexivity.
    + intros ri ->. eexists. split; reflexivity.
Qed.

Lemma scenario_planner_outcomes_witness :
  render_scenario_planner impacted_missing_in_march [] "New Vehicles - Retail"
                          "Gross Profit - New Vehicles" 3 (10 / 100)
  = Raise IndexError.
Proof.
  apply (proj2 (scenario_planner_outcomes
                  impacted_missing_in_march [] "New Vehicles - Retail"
                  "Gross Profit - New Vehicles" 3 (10 / 100))).
  - simpl. left. reflexivity.
  - reflexivity.
Defined.

Lemma render_planned_inv
      (forecast_df : DataFrame) (cleaned_df : HistTable)
      (driver_kpi impacted_kpi : string)
      (selected_month : Z) (change_percentage : R) (res : ScenarioResult) :
  render_scenario_planner forecast_df cleaned_df driver_kpi impacted_kpi
                          selected_month change_percentage = Ok (Planned res) ->
  res = planned_result (original_driver_pred res) (original_impacted_pred res)
                       (scenario_correlation cleaned_df driver_kpi impacted_kpi)
                       change_percentage.
Proof.
  rewrite render_scenario_planner_eval.
  destruct (future_dates forecast_df driver_kpi); [discriminate|].
  destruct (kpi_row_at forecast_df driver_kpi selected_month); [|discriminate].
  destruct (kpi_row_at forecast_df impacted_kpi selected_month);
    [|discriminate].
  intros [= <-]. reflexivity.
Qed.

(** X8.  In every result the planner returns, the driver's change is
    original * percentChange and the impacted KPI's change is
    original * percentChange * corr; a NaN original gives NaN adjusted
    value and change, and a NaN correlation gives a NaN adjusted impacted
    value and change. *)
Theorem scenario_deltas :
  forall (forecast_df : DataFrame) (cleaned_df : HistTable)
         (driver_kpi impacted_kpi : string)
         (selected_month : Z) (change_percentage : R) (res : ScenarioResult),
    render_scenario_planner forecast_df cleaned_df driver_kpi impacted_kpi
                            selected_month change_percentage
    = Ok (Planned res) ->
    (forall v, original_driver_pred res = Some v ->
               driver_delta res = Some (v * change_percentage))
    /\ (forall w c, original_impacted_pred res = Some w ->
                    correlation res = Some c ->
                    impacted_delta res = Some (w * change_percentage * c))
    /\ (original_driver_pred res = None ->
        adjusted_driver_pred res = None /\ driver_delta res = None)
    /\ (original_impacted_pred res = None \/ correlation res = None ->
        adjusted_impacted_pred res = None /\ impacted_delta res = None).
Proof.
  intros df h drv imp m p res H. apply render_planned_inv in H.
  set (corr := scenario_correlation h drv imp) in *.
  destruct res as [od ad dd oi ai di c]. simpl in *.
  unfold planned_result in H. injection H as Had Hdd Hai Hdi Hc.
  subst ad dd ai di c. repeat split.
  - intros v ->. simpl. f_equal. ring.
  - intros w c -> ->. simpl. f_equal. ring.
  - subst od. reflexivity.
  - subst od. reflexivity.
  - destruct H as [-> | ->]; [reflexivity|]. destruct oi; reflexivity.
  - destruct H as [-> | ->]; [reflexivity|]. destruct oi; reflexivity.
Qed.

Lemma scenario_deltas_witness :
  driver_delta (planned_result (Some 1000) (Some 200) (Some 0) (10 / 100))
  = Some (1000 * (10 / 100)).
Proof.
  apply (proj1 (scenario_deltas march_forecast [] "New Vehicles - Retail"
                                "Gross Profit - New Vehicles" 3 (10 / 100)
                                _ eq_refl)).
  reflexivity.
Defined.

Lemma in_columns_false (cleaned_df : HistTable) (kpi : string) :
  not_in_history cleaned_df kpi -> in_columns kpi cleaned_df = false.
Proof.
  intros H. unfold in_columns, pivot_columns.
  destruct (existsb (String.eqb kpi) (unique (map h_english_name cleaned_df)))
    eqn:E; [exfalso|reflexivity].
  apply existsb_exists in E. destruct E as (x & Hx & Hk).
  apply String.eqb_eq in Hk. subst x.
  apply (proj1 (In_unique kpi _)) in Hx. apply in_map_iff in Hx.
  destruct Hx as (h & Hn & Hh). exact (H h Hh Hn).
Qed.

Lemma in_columns_true (cleaned_df : HistTable) (h : HistRow) :
  In h cleaned_df -> in_columns (h_english_name h) cleaned_df = true.
Proof.
  intros H. unfold in_columns, pivot_columns. apply existsb_exists.
  exists (h_english_name h). split; [|apply String.eqb_refl].
  apply In_unique. apply in_map. exact H.
Qed.

(** X9.  When the driver or the impacted KPI is the name of no row of the
    historical table, the planner takes 0 as correlation: the adjusted
    impacted value is the original one and its change, where the original
    is a number, is 0, for every percentage change.  This is the case of a
    composite KPI, which exists in the forecast table only. *)
Theorem scenario_kpi_not_in_history :
  forall (forecast_df : DataFrame) (cleaned_df : HistTable)
         (driver_kpi impacted_kpi : string)
         (selected_month : Z) (change_percentage : R) (res : ScenarioResult),
    not_in_history cleaned_df driver_kpi
    \/ not_in_history cleaned_df impacted_kpi ->
    render_scenario_planner forecast_df cleaned_df driver_kpi impacted_kpi
                            selected_month change_percentage
    = Ok (Planned res) ->
    correlation res = Some 0
    /\ adjusted_impacted_pred res = original_impacted_pred res
    /\ (forall w, original_impacted_pred res = Some w ->
                  impacted_delta res = Some 0).
Proof.
  intros df h drv imp m p res Hnot H. apply render_planned_inv in H.
  assert (Hc : scenario_correlation h drv imp = Some 0).
  { unfold scenario_correlation. destruct Hnot as [Hn|Hn];
      rewrite (in_columns_false _ _ Hn); [reflexivity|].
    rewrite andb_false_r. reflexivity. }
  rewrite Hc in H. rewrite H. simpl. split; [reflexivity|]. split.
  - destruct (original_impacted_pred res) as [w|]; simpl; [|reflexivity].
    f_equal. ring.
  - intros w ->. simpl. f_equal. ring.
Qed.

Lemma scenario_kpi_not_in_history_witness :
  adjusted_impacted_pred
    (planned_result (Some 1500) (Some 200) (Some 0) (25 / 100))
  = Some 200.
Proof.
  assert (Hn : not_in_history two_month_history
                              "Total Vehicle Sales (Verified)").
  { intros h [E|[E|[E|[E|[]]]]]; subst h; discriminate. }
  apply (proj1 (proj2 (scenario_kpi_not_in_history
                         composite_forecast two_month_history
                         "Total Vehicle Sales (Verified)"
                         "Gross Profit - New Vehicles" 3 (25 / 100) _
                         (or_introl Hn) eq_refl))).
Defined.

(** X10.  When both KPIs are names of the historical table and Pearson's
    coefficient of the pair is undefined, because the history covers at most
    one date or because one of the two zero-filled series is constant, every
    result the planner returns has a NaN correlation, a NaN adjusted impacted
    value and a NaN change, whatever the original value is. *)
Theorem scenario_undefined_correlation :
  forall (forecast_df : DataFrame) (cleaned_df : HistTable)
         (driver_kpi impacted_kpi : string)
         (selected_month : Z) (change_percentage : R) (res : ScenarioResult),
    (exists h, In h cleaned_df /\ h_english_name h = driver_kpi) ->
    (exists h, In h cleaned_df /\ h_english_name h = impacted_kpi) ->
    (List.length (pivot_index cleaned_df) <= 1)%nat
    \/ ssqd (pivot_column cleaned_df driver_kpi) = 0
    \/ ssqd (pivot_column cleaned_df impacted_kpi) = 0 ->
    render_scenario_planner forecast_df cleaned_df driver_kpi impacted_kpi
                            selected_month change_percentage
    = Ok (Planned res) ->
    correlation res = None
    /\ adjusted_impacted_pred res = None
    /\ impacted_delta res = None.
Proof.
  intros df h drv imp m p res (hd & Hhd & Hnd) (hi & Hhi & Hni) Hund H.
  apply render_planned_inv in H.
  assert (Hc : scenario_correlation h drv imp = None).
  { unfold scenario_correlation.
    rewrite <- Hnd at 1. rewrite <- Hni at 1.
    rewrite !in_columns_true by assumption. simpl.
    unfold correlation_matrix. apply pearson_none_iff.
    rewrite observations_fst, observations_snd.
    destruct Hund as [Hlen|Hs]; [|exact Hs].
    left. apply ssqd_single. unfold pivot_column. rewrite length_map.
    exact Hlen. }
  rewrite Hc in H. rewrite H. simpl.
  destruct (original_impacted_pred res); repeat split.
Qed.

Lemma scenario_undefined_correlation_witness :
  adjusted_impacted_pred
    (planned_result (Some 1000) (Some 50)
       (scenario_correlation two_month_history "New Vehicles - Retail"
                             "Service Contracts")
       (10 / 100))
  = None.
Proof.
  assert (Hs : ssqd (pivot_column two_month_history "Service Contracts") = 0).
  { rewrite service_contracts_series. unfold ssqd, sq_dev. simpl. lra. }
  apply (proj1 (proj2 (scenario_undefined_correlation
                         service_forecast two_month_history
                         "New Vehicles - Retail" "Service Contracts"
                         3 (10 / 100) _
                         (ex_intro _ (mkHistRow 1 "New Vehicles - Retail" 10)
                                   (conj (or_introl eq_refl) eq_refl))
                         (ex_intro _ (mkHistRow 1 "Service Contracts" 5)
                                   (conj (or_intror (or_intror
                                            (or_introl eq_refl))) eq_refl))
                         (or_intror (or_intror Hs))
                         eq_refl))).
Defined.

(** ** The deep-dive slice *)

Lemma firstn_incl {A : Type} (n : nat) (l : list A) (x : A) :
  In x (firstn n l) -> In x l.
Proof.
  intros H. rewrite <- (firstn_skipn n l). apply in_or_app. now left.
Qed.

(** X11.  The forecast slice of the deep dive never has more than 3 rows;
    each of its rows is a row of the table that bears the selected KPI name
    and has no actual value; it is empty exactly when the KPI has no such
    row, and it holds all of them when there are at most 3. *)
Theorem deep_dive_slice :
  forall (df : DataFrame) (selected_kpi : string),
    (List.length (snd (render_kpi_deep_dive df selected_kpi)) <= 3)%nat
    /\ (forall r, In r (snd (render_kpi_deep_dive df selected_kpi)) ->
                  In r df /\ english_name r = selected_kpi
                  /\ actual_value r = None)
    /\ (snd (render_kpi_deep_dive df selected_kpi) = [] <->
        forall r, In r df -> english_name r = selected_kpi ->
                  actual_value r <> None)
    /\ ((List.length (forecast_rows df selected_kpi) <= 3)%nat ->
        snd (render_kpi_deep_dive df selected_kpi)
        = forecast_rows df selected_kpi).
Proof.
  intros df kpi.
  change (snd (render_kpi_deep_dive df kpi))
    with (firstn 3 (forecast_rows df kpi)).
  split; [apply firstn_le_length|]. split; [|split].
  - intros r0 H. apply firstn_incl in H. unfold forecast_rows, rows_of in H.
    apply filter_In in H. destruct H as [H Ha].
    apply filter_In in H. destruct H as [Hin Hn].
    apply String.eqb_eq in Hn. destruct (actual_value r0); [discriminate|].
    repeat split; assumption.
  - split.
    + intros H r0 Hin Hn Ha.
      assert (Hf : In r0 (forecast_rows df kpi)).
      { unfold forecast_rows, rows_of. apply filter_In. split.
        - apply filter_In. split; [exact Hin|]. rewrite Hn.
          apply String.eqb_refl.
        - rewrite Ha. reflexivity. }
      destruct (forecast_rows df kpi) as [|x l]; [contradiction|].
      discriminate H.
    + intros H.
      assert (Hf : forecast_rows df kpi = []).
      { unfold forecast_rows, rows_of. rewrite filter_filter.
        apply filter_none. intros r0 Hin.
        destruct (String.eqb_spec (english_name r0) kpi) as [Hn|Hn];
          [|reflexivity].
        simpl. specialize (H r0 Hin Hn).
        destruct (actual_value r0); [reflexivity|contradiction]. }
      rewrite Hf. reflexivity.
  - intros Hlen. apply firstn_all2. exact Hlen.
Qed.

Lemma deep_dive_slice_witness :
  snd (render_kpi_deep_dive march_forecast "New Vehicles - Retail")
  = forecast_rows march_forecast "New Vehicles - Retail".
Proof.
  apply (proj2 (proj2 (proj2 (deep_dive_slice march_forecast
                                              "New Vehicles - Retail")))).
  simpl. lia.
Defined.

(** ** The header cards *)

Lemma header_card_eval (df : DataFrame) (title kpi_lower : string) :
  header_card df title kpi_lower =
  match dict_get kpi_lower (kpi_map_of df) with
  | Some kpi_name =>
      match snd (render_kpi_deep_dive df kpi_name) with
      | [] => NoForecast
      | x :: l =>
          Metrics (map (fun row => mkMetric (date row) (predicted_value row)
                                            (contains "Gross" title))
                       (x :: l))
      end
  | None => KpiNotFound
  end.
Proof.
  unfold header_card. fold (kpi_map_of df).
  destruct (dict_get kpi_lower (kpi_map_of df)) as [n|]; [|reflexivity].
  change (snd (render_kpi_deep_dive df n))
    with (firstn 3 (filter (fun r => isna (actual_value r)) (rows_of n df))).
  unfold rows_of. rewrite filter_filter.
  destruct (firstn 3 (filter (fun x => String.eqb (english_name x) n
                                       && isna (actual_value x)) df));
    reflexivity.
Qed.

(** X12.  A card of the header shows "KPI not found" exactly when no KPI
    name of the table normalises to the card's key.  Otherwise it shows, for
    the resolved name, the same rows as the forecast slice of the deep dive
    of that name: "No forecast" when the slice is empty, else one metric per
    row of the slice with the row's date and predicted value, the dollar
    sign being used on the "Total Gross Profit" card only. *)
Theorem render_header_cards :
  forall (df : DataFrame) (title : string) (card : HeaderCard),
    In (title, card) (render_header df) ->
    exists kpi_lower,
      In (title, kpi_lower) key_kpis_lower
      /\ match card with
         | KpiNotFound => unresolved df kpi_lower
         | NoForecast =>
             exists kpi_name,
               dict_get kpi_lower (kpi_map_of df) = Some kpi_name
               /\ snd (render_kpi_deep_dive df kpi_name) = []
         | Metrics ms =>
             exists kpi_name,
               dict_get kpi_lower (kpi_map_of df) = Some kpi_name
               /\ snd (render_kpi_deep_dive df kpi_name) <> []
               /\ ms = map (fun row =>
                              mkMetric (date row) (predicted_value row)
                                       (String.eqb title "Total Gross Profit"))
                           (snd (render_kpi_deep_dive df kpi_name))
         end.
Proof.
  intros df title card H. unfold render_header in H.
  apply in_map_iff in H. destruct H as ([t k] & Heq & Hin).
  simpl in Heq. injection Heq as -> <-. exists k. split; [exact Hin|].
  rewrite header_card_eval.
  destruct (dict_get k (kpi_map_of df)) as [n|] eqn:E.
  - destruct (snd (render_kpi_deep_dive df n)) as [|x l] eqn:Es.
    + exists n. split; [reflexivity|exact Es].
    + exists n. split; [reflexivity|]. rewrite Es. split; [discriminate|].
      replace (contains "Gross" title)
        with (String.eqb title "Total Gross Profit"); [reflexivity|].
      destruct Hin as [[= <- _]|[[= <- _]|[[= <- _]|[]]]]; reflexivity.
  - apply kpi_map_none_unresolved. exact E.
Qed.

Lemma render_header_cards_witness :
  exists kpi_lower,
    In ("Total Gross Profit"%string, kpi_lower) key_kpis_lower
    /\ exists kpi_name,
         dict_get kpi_lower (kpi_map_of header_example) = Some kpi_name
         /\ snd (render_kpi_deep_dive header_example kpi_name) <> []
         /\ [mkMetric 2 (Some 40) true]
            = map (fun row =>
                     mkMetric (date row) (predicted_value row)
                              (String.eqb "Total Gross Profit"
                                          "Total Gross Profit"))
                  (snd (render_kpi_deep_dive header_example kpi_name)).
Proof.
  apply (render_header_cards header_example "Total Gross Profit"
                             (Metrics [mkMetric 2 (Some 40) true])).
  left. reflexivity.
Defined.

Lemma totals_not_header_keys (e : DataFrame) (k : string) :
  In k header_keys -> Forall is_total e -> unresolved e k.
Proof.
  intros Hk He r Hr. rewrite Forall_forall in He.
  destruct (He r Hr) as [-> | ->];
    destruct Hk as [<-|[<-|[<-|[]]]]; vm_compute; discriminate.
Qed.

Lemma header_card_totals (df e : DataFrame) (title k : string) :
  In k header_keys -> Forall is_total e ->
  header_card (df ++ e) title k = header_card df title k.
Proof.
  intros Hk He. rewrite !header_card_eval.
  rewrite (kpi_map_app df e k (totals_not_header_keys e k Hk He)).
  destruct (dict_get k (kpi_map_of df)) as [n|] eqn:E; [|reflexivity].
  change (snd (render_kpi_deep_dive (df ++ e) n))
    with (firstn 3 (filter (fun r => isna (actual_value r))
                           (rows_of n (df ++ e)))).
  change (snd (render_kpi_deep_dive df n))
    with (firstn 3 (filter (fun r => isna (actual_value r)) (rows_of n df))).
  rewrite (rows_of_app_other n df e); [reflexivity|].
  intros r Hr Hn. apply kpi_map_resolved in E. destruct E as [Hnk _].
  apply (totals_not_header_keys e k Hk He r Hr). rewrite Hn. exact Hnk.
Qed.

(** X13.  The composite rows do not reach the header: on the table
    [calculate_summary_kpis] returns, the header shows exactly what it shows
    on the input table.  Its cards look up "total gross profit", "total
    sales" and "profit or loss before income tax", none of which is the key
    of a composite name. *)
Theorem render_header_ignores_composites :
  forall (df df' : DataFrame),
    calculate_summary_kpis (loaded df) = Ok df' ->
    render_header df' = render_header df.
Proof.
  intros df df' H. apply calculate_summary_kpis_rows in H.
  destruct H as (sales & gp & Hs & Hg & ->).
  assert (He : Forall is_total (sales ++ gp)).
  { apply Forall_app. split.
    - apply composite_rows_shape in Hs. eapply Forall_impl; [|exact Hs].
      intros r (Hn & _). now left.
    - apply composite_rows_shape in Hg. eapply Forall_impl; [|exact Hg].
      intros r (Hn & _). now right. }
  unfold render_header. apply map_ext_in. intros [t k] Hin. simpl.
  f_equal. apply header_card_totals; [|exact He].
  unfold header_keys. apply in_map_iff. exists (t, k). split; [reflexivity|exact Hin].
Qed.

Lemma render_header_ignores_composites_witness :
  render_header banded_sales_total = render_header banded_sales.
Proof.
  apply render_header_ignores_composites. reflexivity.
Defined.

(** ** The sidebar of [main] *)

Lemma In_insert_sorted (x y : string) (l : list string) :
  In y (insert_sorted x l) <-> y = x \/ In y l.
Proof.
  induction l as [|a l IH]; simpl; [intuition congruence|].
  destruct (String.leb x a); simpl; [intuition congruence|].
  rewrite IH. intuition congruence.
Qed.

Lemma In_sorted (y : string) (l : list string) : In y (sorted l) <-> In y l.
Proof.
  unfold sorted. induction l as [|a l IH]; simpl; [tauto|].
  rewrite In_insert_sorted, IH. intuition congruence.
Qed.

Lemma insert_sorted_HdRel (a x : string) (l : list string) :
  str_le a x -> HdRel str_le a l -> HdRel str_le a (insert_sorted x l).
Proof.
  intros Hax Hl. destruct l as [|b l]; simpl; [constructor; exact Hax|].
  destruct (String.leb x b); constructor; [exact Hax|].
  inversion Hl; assumption.
Qed.

Lemma insert_sorted_Sorted (x : string) (l : list string) :
  Sorted str_le l -> Sorted str_le (insert_sorted x l).
Proof.
  induction 1 as [|a l Hs IH Hhd]; simpl; [repeat constructor|].
  destruct (String.leb x a) eqn:E.
  - constructor; [constructor; assumption|]. constructor. exact E.
  - constructor; [exact IH|]. apply insert_sorted_HdRel; [|exact Hhd].
    destruct (String.leb_total x a) as [H|H]; [congruence|exact H].
Qed.

Lemma sorted_Sorted (l : list string) : Sorted str_le (sorted l).
Proof.
  unfold sorted. induction l as [|a l IH]; simpl;
    [constructor|apply insert_sorted_Sorted; exact IH].
Qed.

Lemma insert_sorted_NoDup (x : string) (l : list string) :
  ~ In x l -> NoDup l -> NoDup (insert_sorted x l).
Proof.
  intros Hx Hnd. induction Hnd as [|a l Ha Hnd IH]; simpl;
    [repeat constructor; exact Hx|].
  destruct (String.leb x a).
  - constructor; [exact Hx|constructor; assumption].
  - constructor.
    + rewrite In_insert_sorted. intros [->|H]; [|contradiction].
      apply Hx. now left.
    + apply IH. intros H. apply Hx. now right.
Qed.

Lemma unique_NoDup (l : list string) : NoDup (unique l).
Proof.
  induction l as [|x l IH]; simpl; constructor.
  - intros H. apply filter_In in H. destruct H as [_ H].
    rewrite String.eqb_refl in H. discriminate H.
  - apply NoDup_filter. exact IH.
Qed.

Lemma sorted_NoDup (l : list string) : NoDup l -> NoDup (sorted l).
Proof.
  unfold sorted. induction 1 as [|a l Ha Hnd IH]; simpl; [constructor|].
  apply insert_sorted_NoDup; [|exact IH].
  intros H. apply Ha. apply In_sorted. exact H.
Qed.

Lemma mem_In (x : string) (l : list string) : mem x l = true <-> In x l.
Proof.
  unfold mem. rewrite existsb_exists. split.
  - intros (y & Hy & E). apply String.eqb_eq in E. subst y. exact Hy.
  - intros H. exists x. split; [exact H|apply String.eqb_refl].
Qed.

Lemma index_of_In (x : string) (l : list string) :
  In x l -> exists i, index_of x l = Some i /\ nth_error l i = Some x.
Proof.
  induction l as [|y l IH]; simpl; [contradiction|]. intros H.
  destruct (String.eqb_spec y x) as [->|Hne].
  - exists O. split; reflexivity.
  - destruct H as [H|H]; [contradiction|].
    destruct (IH H) as (i & -> & Hi). exists (S i). split; [reflexivity|exact Hi].
Qed.

Lemma item_In (l : list string) (i : nat) (x : string) :
  item l i = Ok x -> In x l.
Proof.
  unfold item. destruct (nth_error l i) as [y|] eqn:E; [|discriminate].
  intros [= <-]. exact (nth_error_In l i E).
Qed.

Lemma default_driver_In (kl : list string) :
  kl <> [] -> exists d, default_driver kl = Ok d /\ In d kl.
Proof.
  intros Hne. unfold default_driver.
  destruct (mem total_sales_name kl) eqn:E.
  - exists total_sales_name. split; [reflexivity|apply mem_In; exact E].
  - destruct kl as [|x kl]; [contradiction|].
    exists x. split; [reflexivity|now left].
Qed.

Lemma default_impacted_In (kl : list string) :
  kl <> [] -> exists d, default_impacted kl = Ok d /\ In d kl.
Proof.
  intros Hne. unfold default_impacted.
  destruct (mem total_gp_name kl) eqn:E.
  - exists total_gp_name. split; [reflexivity|apply mem_In; exact E].
  - destruct kl as [|x [|y kl]]; [contradiction| |].
    + exists x. split; [reflexivity|now left].
    + exists y. split; [reflexivity|right; now left].
Qed.

Lemma kpi_list_of_In (df : DataFrame) (n : string) :
  In n (kpi_list_of df) <-> exists r, In r df /\ english_name r = n.
Proof.
  unfold kpi_list_of. rewrite In_sorted, In_unique, in_map_iff.
  split; intros (r & H1 & H2); exists r; tauto.
Qed.

Lemma calculate_summary_kpis_keeps_rows (df : LoadedFrame) (df' : DataFrame) :
  calculate_summary_kpis df = Ok df' -> df <> [] -> df' <> [].
Proof.
  intros H Hne. destruct (calculate_summary_kpis_ok_named df df' H) as (df0 & ->).
  apply calculate_summary_kpis_rows in H.
  destruct H as (sales & gp & _ & _ & ->).
  destruct df0 as [|r df0]; [contradiction|discriminate].
Qed.

(** X14.  Past the two stops of the loader, on a table without rows or
    without any KPI name, and once the composite build has returned, [main]
    sets up the select boxes without raising: both defaults are members of
    the options, so [kpi_list.index] finds them, and the stored positions
    point at them.  The options are the distinct KPI names of the table in
    sorted order, without repetition.  The only exceptions a run can end in
    up to that point are those of the composite build. *)
Theorem main_sidebar_defaults :
  forall (forecast_df_raw : LoadedFrame) (cleaned_df_raw : HistTable),
    (forall forecast_df,
        forecast_stops forecast_df_raw = false ->
        cleaned_stops cleaned_df_raw = false ->
        calculate_summary_kpis forecast_df_raw = Ok forecast_df ->
        exists i j driver impacted,
          main_sidebar forecast_df_raw cleaned_df_raw
          = Sidebar_set (mkSidebar (kpi_list_of forecast_df) i j)
          /\ default_driver (kpi_list_of forecast_df) = Ok driver
          /\ default_impacted (kpi_list_of forecast_df) = Ok impacted
          /\ nth_error (kpi_list_of forecast_df) i = Some driver
          /\ nth_error (kpi_list_of forecast_df) j = Some impacted)
    /\ (forall forecast_df,
          calculate_summary_kpis forecast_df_raw = Ok forecast_df ->
          Sorted str_le (kpi_list_of forecast_df)
          /\ NoDup (kpi_list_of forecast_df)
          /\ (forall n, In n (kpi_list_of forecast_df) <->
                        exists r, In r forecast_df /\ english_name r = n))
    /\ (forall e,
          main_sidebar forecast_df_raw cleaned_df_raw = Main_raised e ->
          calculate_summary_kpis forecast_df_raw = Raise e
          /\ (e = AttributeError \/ e = TypeError)).
Proof.
  intros raw h.
  assert (Hset : forall df,
             forecast_stops raw = false -> cleaned_stops h = false ->
             calculate_summary_kpis raw = Ok df ->
             exists i j driver impacted,
               main_sidebar raw h = Sidebar_set (mkSidebar (kpi_list_of df) i j)
               /\ default_driver (kpi_list_of df) = Ok driver
               /\ default_impacted (kpi_list_of df) = Ok impacted
               /\ nth_error (kpi_list_of df) i = Some driver
               /\ nth_error (kpi_list_of df) j = Some impacted).
  { intros df Hf Hc H.
    assert (Hne : df <> []).
    { apply (calculate_summary_kpis_keeps_rows raw df H).
      intros ->. discriminate Hf. }
    assert (Hkl : kpi_list_of df <> []).
    { destruct df as [|r0 df]; [contradiction|]. intros E.
      assert (Hin : In (english_name r0) (kpi_list_of (r0 :: df)))
        by (apply kpi_list_of_In; exists r0; split; [now left|reflexivity]).
      rewrite E in Hin. contradiction. }
    destruct (default_driver_In _ Hkl) as (d & Hd & Hdin).
    destruct (default_impacted_In _ Hkl) as (im & Him & Himin).
    destruct (index_of_In d _ Hdin) as (i & Hi & Hni).
    destruct (index_of_In im _ Himin) as (j & Hj & Hnj).
    exists i, j, d, im. unfold main_sidebar. rewrite Hf, Hc, H, Hd, Him, Hi, Hj.
    repeat split; assumption. }
  split; [exact Hset|]. split.
  - intros df _. split; [apply sorted_Sorted|].
    split; [apply sorted_NoDup, unique_NoDup|apply kpi_list_of_In].
  - intros e H.
    destruct (forecast_stops raw) eqn:Hf;
      [unfold main_sidebar in H; rewrite Hf in H; discriminate H|].
    destruct (cleaned_stops h) eqn:Hc;
      [unfold main_sidebar in H; rewrite Hf, Hc in H; discriminate H|].
    destruct (calculate_summary_kpis raw) as [df|e'] eqn:E.
    + destruct (Hset df eq_refl eq_refl eq_refl) as (i & j & d & im & Hm & _).
      rewrite Hm in H. discriminate H.
    + unfold main_sidebar in H. rewrite Hf, Hc, E in H. injection H as <-.
      split; [reflexivity|]. exact (calculate_summary_kpis_exn raw e' E).
Qed.

Lemma main_sidebar_defaults_witness :
  exists i j driver impacted,
    main_sidebar (loaded banded_sales) two_month_history
    = Sidebar_set (mkSidebar (kpi_list_of banded_sales_total) i j)
    /\ default_driver (kpi_list_of banded_sales_total) = Ok driver
    /\ default_impacted (kpi_list_of banded_sales_total) = Ok impacted
    /\ nth_error (kpi_list_of banded_sales_total) i = Some driver
    /\ nth_error (kpi_list_of banded_sales_total) j = Some impacted.
Proof.
  apply (proj1 (main_sidebar_defaults (loaded banded_sales) two_month_history)
               banded_sales_total);
    reflexivity.
Defined.

Lemma frame_add_covers (a b : DataFrame) (total : list SumRow) (d : Z) :
  frame_add_fill0 a b = Ok total ->
  In d (map date a) -> In d (map s_date total).
Proof.
  intros H Hd. rewrite (frame_add_dates a b total H).
  apply align_covers. exact Hd.
Qed.

Lemma composite_rows_nonempty (km : dict) (a_lower b_lower name a b : string)
      (d : DataFrame) (rows : list Row) :
  composite_rows km a_lower b_lower name d = Ok rows ->
  dict_get a_lower km = Some a -> dict_get b_lower km = Some b ->
  (exists r, In r d /\ english_name r = a) ->
  exists r, In r rows /\ english_name r = name.
Proof.
  unfold composite_rows, total_rows. intros H Ha Hb (r0 & Hr0 & Hn).
  rewrite Ha, Hb in H.
  destruct (frame_add_fill0 (rows_of a d) (rows_of b d)) as [total|e] eqn:E;
    simpl in H; [|discriminate H].
  injection H as <-.
  assert (Hin : In (date r0) (map s_date total)).
  { apply (frame_add_covers _ _ _ _ E). apply in_map. unfold rows_of.
    apply filter_In. split; [exact Hr0|]. rewrite Hn. apply String.eqb_refl. }
  apply in_map_iff in Hin. destruct Hin as (s & _ & Hs).
  exists (total_row name s). split; [apply in_map; exact Hs|reflexivity].
Qed.

(** X15.  When [calculate_summary_kpis] returns and both retail sales
    components resolve, the default driver of the sidebar is the composite
    "Total Vehicle Sales (Verified)"; when both gross profit components
    resolve, the default impacted KPI is "Total Gross Profit (Verified)". *)
Theorem main_defaults_are_composites :
  forall (forecast_df_raw forecast_df : DataFrame),
    calculate_summary_kpis (loaded forecast_df_raw) = Ok forecast_df ->
    ((exists a b,
         dict_get new_sales_lower (kpi_map_of forecast_df_raw) = Some a
         /\ dict_get used_sales_lower (kpi_map_of forecast_df_raw) = Some b) ->
     default_driver (kpi_list_of forecast_df) = Ok total_sales_name)
    /\ ((exists a b,
            dict_get new_gp_lower (kpi_map_of forecast_df_raw) = Some a
            /\ dict_get used_gp_lower (kpi_map_of forecast_df_raw) = Some b) ->
        default_impacted (kpi_list_of forecast_df) = Ok total_gp_name).
Proof.
  intros raw df H. apply calculate_summary_kpis_rows in H.
  destruct H as (sales & gp & Hs & Hg & ->). split.
  - intros (a & b & Ha & Hb).
    destruct (kpi_map_resolved raw _ a Ha) as (_ & r0 & Hr0 & Hn).
    destruct (composite_rows_nonempty _ _ _ _ a b raw sales Hs Ha Hb)
      as (r & Hr & Hname); [exists r0; split; assumption|].
    unfold default_driver.
    replace (mem total_sales_name (kpi_list_of (raw ++ sales ++ gp))) with true;
      [reflexivity|].
    symmetry. apply mem_In, kpi_list_of_In. exists r. split; [|exact Hname].
    apply in_or_app. right. apply in_or_app. now left.
  - intros (a & b & Ha & Hb).
    destruct (kpi_map_resolved raw _ a Ha) as (_ & r0 & Hr0 & Hn).
    destruct (composite_rows_nonempty _ _ _ _ a b (raw ++ sales) gp Hg Ha Hb)
      as (r & Hr & Hname).
    { exists r0. split; [apply in_or_app; now left|exact Hn]. }
    unfold default_impacted.
    replace (mem total_gp_name (kpi_list_of (raw ++ sales ++ gp))) with true;
      [reflexivity|].
    symmetry. apply mem_In, kpi_list_of_In. exists r. split; [|exact Hname].
    apply in_or_app. right. apply in_or_app. now right.
Qed.

Lemma main_defaults_are_composites_witness :
  default_driver (kpi_list_of banded_sales_total) = Ok total_sales_name.
Proof.
  apply (proj1 (main_defaults_are_composites banded_sales banded_sales_total
                                             eq_refl)).
  exists "New Vehicles - Retail"%string, "Used Vehicles - Retail"%string.
  split; reflexivity.
Defined.

(** ** Original KPIs after the composite build *)

Lemma kpi_row_at_app_other (df e : DataFrame) (kpi : string) (m : Z) :
  (forall r, In r e -> english_name r <> kpi) ->
  kpi_row_at (df ++ e) kpi m = kpi_row_at df kpi m.
Proof.
  intros H. unfold kpi_row_at. rewrite find_app.
  destruct (find _ df) as [r0|]; [reflexivity|].
  destruct (find (fun r => String.eqb (english_name r) kpi
                           && (date r =? m)%Z) e) as [r1|] eqn:E;
    [exfalso|reflexivity].
  apply find_some in E. destruct E as [Hin Hp].
  apply andb_prop in Hp. destruct Hp as [Hn _].
  apply String.eqb_eq in Hn. exact (H r1 Hin Hn).
Qed.

(** X16.  The composite build leaves the original KPIs as they are: for a
    KPI name other than the two composite names, the deep dive on the
    returned table gives the same series and the same forecast slice as on
    the input table, and the scenario planner gives the same outcome for a
    driver and an impacted KPI that are both no composite names. *)
Theorem composites_leave_kpis_unchanged :
  forall (df df' : DataFrame),
    calculate_summary_kpis (loaded df) = Ok df' ->
    (forall kpi,
        kpi <> total_sales_name -> kpi <> total_gp_name ->
        render_kpi_deep_dive df' kpi = render_kpi_deep_dive df kpi)
    /\ (forall cleaned_df driver_kpi impacted_kpi selected_month
               change_percentage,
          driver_kpi <> total_sales_name -> driver_kpi <> total_gp_name ->
          impacted_kpi <> total_sales_name -> impacted_kpi <> total_gp_name ->
          render_scenario_planner df' cleaned_df driver_kpi impacted_kpi
                                  selected_month change_percentage
          = render_scenario_planner df cleaned_df driver_kpi impacted_kpi
                                    selected_month change_percentage).
Proof.
  intros df df' H. apply calculate_summary_kpis_rows in H.
  destruct H as (sales & gp & Hs & Hg & ->).
  assert (He : forall kpi, kpi <> total_sales_name -> kpi <> total_gp_name ->
                           forall r, In r (sales ++ gp) ->
                                     english_name r <> kpi).
  { intros kpi H1 H2 r Hr. apply in_app_or in Hr. destruct Hr as [Hr|Hr].
    - apply composite_rows_shape in Hs. rewrite Forall_forall in Hs.
      destruct (Hs r Hr) as (-> & _). congruence.
    - apply composite_rows_shape in Hg. rewrite Forall_forall in Hg.
      destruct (Hg r Hr) as (-> & _). congruence. }
  split.
  - intros kpi H1 H2. unfold render_kpi_deep_dive.
    rewrite (rows_of_app_other kpi df (sales ++ gp) (He kpi H1 H2)).
    reflexivity.
  - intros h drv imp m p Hd1 Hd2 Hi1 Hi2.
    rewrite !render_scenario_planner_eval. unfold future_dates.
    rewrite (rows_of_app_other drv df (sales ++ gp) (He drv Hd1 Hd2)).
    rewrite (kpi_row_at_app_other df (sales ++ gp) drv m (He drv Hd1 Hd2)).
    rewrite (kpi_row_at_app_other df (sales ++ gp) imp m (He imp Hi1 Hi2)).
    reflexivity.
Qed.

Lemma composites_leave_kpis_unchanged_witness :
  render_kpi_deep_dive banded_sales_total "New Vehicles - Retail"
  = render_kpi_deep_dive banded_sales "New Vehicles - Retail".
Proof.
  apply (proj1 (composites_leave_kpis_unchanged banded_sales banded_sales_total
                                                eq_refl));
    discriminate.
Defined.

(** ** Correlation of series in affine relation *)

Lemma rsum_map_scale {A : Type} (f : A -> R) (k : R) (l : list A) :
  rsum (map (fun x => k * f x) l) = k * rsum (map f l).
Proof.
  induction l as [|a l IH]; simpl; [ring|]. rewrite IH. ring.
Qed.

Lemma rsum_affine (pts : list (R * R)) (k c : R) :
  (forall p, In p pts -> snd p = k * fst p + c) ->
  rsum (map snd pts) = k * rsum (map fst pts) + c * INR (List.length pts).
Proof.
  induction pts as [|p l IH]; intros H.
  - simpl. ring.
  - change (rsum (map snd (p :: l))) with (snd p + rsum (map snd l)).
    change (rsum (map fst (p :: l))) with (fst p + rsum (map fst l)).
    change (List.length (p :: l)) with (S (List.length l)).
    rewrite S_INR, IH, (H p (or_introl eq_refl)); [ring|].
    intros q Hq. apply H. now right.
Qed.

Lemma affine_series (pts : list (R * R)) (k c : R) :
  (forall p, In p pts -> snd p = k * fst p + c) ->
  pts <> [] ->
  covariation pts = k * ssqd (map fst pts)
  /\ ssqd (map snd pts) = k * k * ssqd (map fst pts).
Proof.
  intros H Hne.
  assert (Hn : INR (List.length pts) <> 0).
  { destruct pts as [|p l]; [contradiction|].
    change (List.length (p :: l)) with (S (List.length l)).
    apply not_0_INR. discriminate. }
  assert (Hmean : rsum (map snd pts) / INR (List.length pts)
                  = k * (rsum (map fst pts) / INR (List.length pts)) + c).
  { rewrite (rsum_affine pts k c H). field. exact Hn. }
  unfold covariation, ssqd. rewrite !map_map, !length_map, Hmean.
  set (mx := rsum (map fst pts) / INR (List.length pts)).
  split.
  - rewrite <- (rsum_map_scale (fun p => sq_dev mx (fst p)) k pts).
    f_equal. apply map_ext_in. intros p Hp. rewrite (H p Hp).
    unfold sq_dev. ring.
  - rewrite <- (rsum_map_scale (fun p => sq_dev mx (fst p)) (k * k) pts).
    f_equal. apply map_ext_in. intros p Hp. rewrite (H p Hp).
    unfold sq_dev. ring.
Qed.

(** X17.  When, at every date of the pivot, the zero-filled value of KPI
    [b] is [k] times that of KPI [a] plus a constant, and the series of [a]
    is not constant, the correlation entry of the pair is 1 for a positive
    [k] and -1 for a negative [k]. *)
Theorem correlation_of_affine_series :
  forall (t : HistTable) (a b : string) (k c : R),
    (forall d, In d (pivot_index t) ->
               pivot_cell t d b = k * pivot_cell t d a + c) ->
    ssqd (pivot_column t a) <> 0 ->
    (0 < k -> correlation_matrix t a b = Some 1)
    /\ (k < 0 -> correlation_matrix t a b = Some (-1)).
Proof.
  intros t a b k c Hrel Hvar. unfold correlation_matrix.
  assert (Hpts : forall p, In p (observations t a b) ->
                           snd p = k * fst p + c).
  { intros p Hp. unfold observations in Hp. apply in_map_iff in Hp.
    destruct Hp as (d & <- & Hd). simpl. apply Hrel. exact Hd. }
  pose proof (observations_fst t a b) as Hf.
  assert (Hne : observations t a b <> []).
  { intros E. apply Hvar. rewrite <- Hf, E. reflexivity. }
  destruct (affine_series _ k c Hpts Hne) as [Hcov Hsy].
  destruct (observations t a b) as [|p l] eqn:Eo; [contradiction|].
  rewrite pearson_cons, Hcov, Hsy, Hf.
  set (s := ssqd (pivot_column t a)) in *.
  assert (Hs : 0 <= s) by apply ssqd_nonneg.
  split; intros Hk.
  - replace (s * (k * k * s)) with ((k * s) * (k * s)) by ring.
    rewrite sqrt_square by nra.
    destruct (Req_dec_T (k * s) 0) as [E|E]; [exfalso; nra|].
    f_equal. field. split; [exact Hvar|lra].
  - replace (s * (k * k * s)) with ((- k * s) * (- k * s)) by ring.
    rewrite sqrt_square by nra.
    destruct (Req_dec_T (- k * s) 0) as [E|E]; [exfalso; nra|].
    f_equal. field. split; [exact Hvar|lra].
Qed.

Lemma correlation_of_affine_series_witness :
  correlation_matrix proportional_history "New Vehicles - Retail"
                     "Gross Profit - New Vehicles" = Some 1.
Proof.
  assert (Hrel : forall d, In d (pivot_index proportional_history) ->
                   pivot_cell proportional_history d
                              "Gross Profit - New Vehicles"
                   = 2 * pivot_cell proportional_history d
                                    "New Vehicles - Retail" + 5).
  { intros d [<-|[<-|[]]]; unfold pivot_cell, group_values; simpl; lra. }
  assert (Hvar : ssqd (pivot_column proportional_history
                                    "New Vehicles - Retail") <> 0).
  { replace (pivot_column proportional_history "New Vehicles - Retail")
      with [(10 + 0) / 1; (30 + 0) / 1] by reflexivity.
    unfold ssqd, sq_dev. simpl. lra. }
  apply (proj1 (correlation_of_affine_series
                  proportional_history "New Vehicles - Retail"
                  "Gross Profit - New Vehicles" 2 5 Hrel Hvar)).
  lra.
Defined.
